(** * Chronicle ingestion client ([ingest.py]): size-aware batching,
      the send operation and the reference-list fetch.

    Python values are embedded as follows.
    - [str] is [string]; every [ascii] stands for the code point of the
      same number (0..255).
    - A JSON-serialisable value is a [json] tree; a [dict] is an association
      list in insertion order.
    - [sys.getsizeof] of the ASCII text produced by [json.dumps] is the
      object header of the interpreter plus one byte per character plus the
      terminating byte; the header is the section variable [str_header].
    - The authorised HTTP session is an oracle that, knowing the requests
      made before, answers a request or fails it, in which case
      [http_session.request] raises; creating the session can fail too. The
      history is the state threaded through the monad [M], and it is the
      trace of the requests made. A [Session] is an endpoint that answers
      every request; it is read as a session wherever one is expected.
    - A [while] loop takes fuel; running out of it is the result
      [OutOfFuel], distinct from returning and from raising.
    - The calls to [print] are left out, and so is what
      [initialize_http_session] does with the service account and the
      scopes: it is given the session the libraries build, or nothing when
      they raise. *)

Set Warnings "-register-all".
From Stdlib Require Import ZArith List Bool Lia Ascii String.
From Stdlib Require Import Numbers.DecimalString.
Import ListNotations.
Open Scope string_scope.
Open Scope Z_scope.

(** ** Strings *)

Module Str.

(** Decimal text of an integer, as [str(int)] and [json.dumps(int)]. *)
Definition of_Z (z : Z) : string := NilZero.string_of_int (Z.to_int z).

(** [n] copies of one character. *)
Fixpoint replicate (n : nat) (c : ascii) : string :=
  match n with
  | O => EmptyString
  | S k => String c (replicate k c)
  end.

Definition code (c : ascii) : N := N_of_ascii c.

(** The double quote, as a one-character string. *)
Definition dquote : string := String (ascii_of_N 34) EmptyString.

(** [str.lower] on the code points 0..255: the ASCII capitals and the
    Latin-1 capitals (all of U+00C0..U+00DE but the multiplication sign)
    move up by 32. *)
Definition lower_char (c : ascii) : ascii :=
  let n := code c in
  if (((65 <=? n) && (n <=? 90)) ||
      ((192 <=? n) && (n <=? 222) && negb (n =? 215)))%N
  then ascii_of_N (n + 32) else c.

Fixpoint lower (s : string) : string :=
  match s with
  | EmptyString => EmptyString
  | String c r => String (lower_char c) (lower r)
  end.

(** White space as [str.strip] sees it, on the code points 0..255. *)
Definition is_space (c : ascii) : bool :=
  let n := code c in
  (((9 <=? n) && (n <=? 13)) || ((28 <=? n) && (n <=? 32)) ||
   (n =? 133) || (n =? 160))%N.

Fixpoint lstrip (s : string) : string :=
  match s with
  | EmptyString => EmptyString
  | String c r => if is_space c then lstrip r else s
  end.

(** Drops the white space at the end: a character is kept when it is not
    white space or something is kept after it. *)
Fixpoint rstrip (s : string) : string :=
  match s with
  | EmptyString => EmptyString
  | String c r =>
      match rstrip r with
      | EmptyString => if is_space c then EmptyString else String c EmptyString
      | r' => String c r'
      end
  end.

Definition strip (s : string) : string := rstrip (lstrip s).

(** Truth value of a [str]: non-empty. *)
Definition truthy (s : string) : bool :=
  match s with EmptyString => false | _ => true end.

Definition len (s : string) : Z := Z.of_nat (String.length s).

End Str.

(** ** JSON values and [json.dumps] *)

Inductive json : Type :=
| JNull
| JBool (b : bool)
| JInt (n : Z)
| JFloat (repr : string)          (* a float, carried by the text [float.__repr__] gives *)
| JString (s : string)
| JList (xs : list json)
| JObject (kvs : list (string * json)).

Module Json.

Definition hex_digit (n : N) : ascii :=
  ascii_of_N (if (n <? 10)%N then 48 + n else 87 + n).

(** One character of a JSON string under [ensure_ascii=True]
    ([json.encoder.py_encode_basestring_ascii]). *)
Definition escape_char (c : ascii) : string :=
  let n := Str.code c in
  if (n =? 34)%N then "\" ++ Str.dquote
  else if (n =? 92)%N then "\\"
  else if (n =? 10)%N then "\n"
  else if (n =? 13)%N then "\r"
  else if (n =? 9)%N then "\t"
  else if (n =? 12)%N then "\f"
  else if (n =? 8)%N then "\b"
  else if ((n <? 32) || (126 <? n))%N
       then "\u00" ++ String (hex_digit (n / 16)) (String (hex_digit (n mod 16)) EmptyString)
  else String c EmptyString.

Fixpoint escape (s : string) : string :=
  match s with
  | EmptyString => EmptyString
  | String c r => escape_char c ++ escape r
  end.

Definition quote (s : string) : string := Str.dquote ++ escape s ++ Str.dquote.

(** [json.dumps] with its default separators [", "] and [": "]. *)
Fixpoint dumps (v : json) : string :=
  match v with
  | JNull => "null"
  | JBool true => "true"
  | JBool false => "false"
  | JInt n => Str.of_Z n
  | JFloat r => r
  | JString s => quote s
  | JList xs => "[" ++ String.concat ", " (map dumps xs) ++ "]"
  | JObject kvs =>
      "{" ++ String.concat ", "
               (map (fun kv => match kv with
                               | (k, x) => quote k ++ ": " ++ dumps x
                               end) kvs) ++ "}"
  end.

(** [dict.get(key, default)] on an association list. *)
Fixpoint get (key : string) (kvs : list (string * json)) (default : json) : json :=
  match kvs with
  | [] => default
  | (k, x) :: r => if String.eqb k key then x else get key r default
  end.

End Json.

(** ** Exceptions, results and the session monad *)

Inductive exn : Type :=
| HTTPError (status : Z)          (* [requests.exceptions.HTTPError], from [raise_for_status] *)
| ValueError                      (* the JSON decoding error of [response.json()] *)
| AttributeError                  (* [.get] or [.strip] on a value that has no such method *)
| TypeError                       (* iterating a value that is not iterable *)
| IndexError
| ConnectionError                 (* what [http_session.request] itself raises when it obtains no
                                     response: a connection or time-out error, a failed token refresh *)
| AuthError                       (* what building the credentials raises in [initialize_http_session] *)
| RuntimeError (message : string) (cause : exn).   (* [raise RuntimeError(message) from cause] *)

Inductive result (A : Type) : Type :=
| Ok (a : A)
| Raise (e : exn)
| OutOfFuel.
Arguments Ok {A} a.
Arguments Raise {A} e.
Arguments OutOfFuel {A}.

Record Request : Type := mkRequest {
  method : string;
  url : string;
  payload : option json;          (* the [json=] argument, serialised when the call is made *)
  headers : list (string * string)
}.

(** What the code observes of a [requests.Response]: the status and what
    [response.json()] gives, [None] when the body is not a JSON document
    (as for a body of zero bytes) and the call raises. *)
Record Response : Type := mkResponse {
  status_code : Z;
  json_body : option json
}.

(** An endpoint that answers every request, knowing the requests made
    before it. *)
Definition Session : Type := list Request -> Request -> Response.

(** The authorised session: a request is answered, or the call raises. *)
Definition AuthorizedSession : Type := list Request -> Request -> option Response.

Definition answering (s : Session) : AuthorizedSession :=
  fun log req => Some (s log req).
Coercion answering : Session >-> AuthorizedSession.

(** What the libraries make of the service account: an authorised session,
    or nothing when building the credentials raises. *)
Definition Credentials : Type := option AuthorizedSession.

Definition authorized (a : AuthorizedSession) : Credentials := Some a.
Coercion authorized : AuthorizedSession >-> Credentials.

Definition M (A : Type) : Type := list Request -> list Request * result A.

Definition ret {A} (a : A) : M A := fun log => (log, Ok a).

Definition lift {A} (r : result A) : M A := fun log => (log, r).

Definition raise {A} (e : exn) : M A := lift (Raise e).

Definition bind {A B} (m : M A) (k : A -> M B) : M B :=
  fun log =>
    match m log with
    | (log', Ok a) => k a log'
    | (log', Raise e) => (log', Raise e)
    | (log', OutOfFuel) => (log', OutOfFuel)
    end.

(** [try: m  except <class> as err: h err], for the classes [handles] accepts. *)
Definition try_except {A} (m : M A) (handles : exn -> bool) (h : exn -> M A) : M A :=
  fun log =>
    match m log with
    | (log', Raise e) => if handles e then h e log' else (log', Raise e)
    | other => other
    end.

Declare Scope session_scope.
Delimit Scope session_scope with session.
Notation "x <- m ;; k" := (bind m (fun x => k))
  (at level 61, m at next level, right associativity) : session_scope.
Notation "m ;;; k" := (bind m (fun _ => k))
  (at level 61, right associativity) : session_scope.
Open Scope session_scope.

(** [except Exception]: every exception of the model. *)
Definition is_Exception (e : exn) : bool := true.

(** [except ValueError]. *)
Definition is_ValueError (e : exn) : bool :=
  match e with ValueError => true | _ => false end.

(** [http_session.request(...)]: the request joins the history, and the
    call gives the response or raises. *)
Definition request (http_session : AuthorizedSession) (req : Request) : M Response :=
  fun log =>
    match http_session log req with
    | Some response => ((log ++ [req])%list, Ok response)
    | None => ((log ++ [req])%list, Raise ConnectionError)
    end.

(** [initialize_http_session(service_account_json, scopes)]: the session
    built from the credentials, or the exception of building them. *)
Definition initialize_http_session (account : Credentials) : M AuthorizedSession :=
  match account with
  | Some http_session => ret http_session
  | None => raise AuthError
  end.

(** [Response.raise_for_status]: an [HTTPError] for the 4xx and 5xx codes,
    nothing for any other. *)
Definition raise_for_status (r : Response) : result unit :=
  if (400 <=? status_code r) && (status_code r <? 600)
  then Raise (HTTPError (status_code r)) else Ok tt.

(** [Response.__bool__], that is [Response.ok]: whether [raise_for_status]
    passes. *)
Definition response_bool (r : Response) : bool :=
  match raise_for_status r with
  | Raise (HTTPError _) => false
  | _ => true
  end.

Definition response_json (r : Response) : result json :=
  match json_body r with
  | Some v => Ok v
  | None => Raise ValueError
  end.

(** [v.get(key, default)]: only a [dict] has the method. *)
Definition py_get (v : json) (key : string) (default : json) : result json :=
  match v with
  | JObject kvs => Ok (Json.get key kvs default)
  | _ => Raise AttributeError
  end.

(** [for s in v]: the elements of a list, the characters of a [str], the
    keys of a [dict]. *)
Fixpoint chars (s : string) : list json :=
  match s with
  | EmptyString => []
  | String c r => JString (String c EmptyString) :: chars r
  end.

Definition py_iter (v : json) : result (list json) :=
  match v with
  | JList xs => Ok xs
  | JString s => Ok (chars s)
  | JObject kvs => Ok (map (fun kv => JString (fst kv)) kvs)
  | _ => Raise TypeError
  end.

(** Python's slice [l[i:j]] for [0 <= i <= j]. *)
Definition slice {A} (l : list A) (i j : nat) : list A := firstn (j - i) (skipn i l).

(** ** Module constants *)

Definition INGESTION_API_BASE_URL : string := "malachiteingestion-pa.googleapis.com".
Definition REFERENCE_LIST_API_BASE_URL : string := "backstory.googleapis.com".
Definition SIZE_THRESHOLD_BYTES : Z := 950000.
Definition LOG_BATCH_SIZE : nat := 100.

Record Envelope : Type := mkEnvelope { logText : string }.

Definition envelope_json (e : Envelope) : json :=
  JObject [("logText", JString (logText e))].

(** ** The program *)

Section Program.

(** Size of the object header of an ASCII [str] in the interpreter
    running the code ([sys.getsizeof] of the empty string, less one). *)
Variable str_header : nat.

(** [str(v)] for a decoded JSON value that is not itself a [str]. *)
Variable repr_json : json -> string.

(** [str(err)] for a caught exception. *)
Variable str_exn : exn -> string.

(** Module-level configuration, read from the environment at load time. *)
Variable CUSTOMER_ID : string.
Variable REGION : string.
(** [os.getenv(ENV_CHRONICLE_NAMESPACE)]. *)
Variable NAMESPACE : option string.

(** [sys.getsizeof(s)] for the ASCII text [s]. *)
Definition getsizeof (s : string) : Z :=
  Z.of_nat str_header + Str.len s + 1.

(** [f"{v}"]: a [str] as it is, any other value through its [repr]. *)
Definition py_str (v : json) : string :=
  match v with
  | JString s => s
  | _ => repr_json v
  end.

(** The test [if not response.json()] only guards a [print]; what remains
    of it is the call to [response.json()], which can raise inside the
    [try]. *)
Definition _send_logs_to_chronicle
    (http_session : AuthorizedSession) (body : json) (region : string) : M unit :=
  let url :=
    if negb (Str.lower region =? "us")%string
    then "https://" ++ Str.lower region ++ "-" ++ INGESTION_API_BASE_URL
           ++ "/v2/unstructuredlogentries:batchCreate"
    else "https://" ++ INGESTION_API_BASE_URL
           ++ "/v2/unstructuredlogentries:batchCreate" in
  let header := [("Content-Type", "application/json")] in
  response <- request http_session (mkRequest "POST" url (Some body) header) ;;
  try_except
    (lift (raise_for_status response) ;;;
     _ <- lift (response_json response) ;;
     ret tt)
    is_Exception
    (fun err =>
       error_message <-
         try_except
           (v <- lift (response_json response) ;;
            lift (py_get v "error" (JString "Unknown error")))
           is_ValueError
           (fun _ => ret (JString "Failed to parse error response from Chronicle")) ;;
       raise (RuntimeError
                ("Error occurred while pushing logs to Chronicle. "
                 ++ "Status code " ++ Str.of_Z (status_code response)
                 ++ ". Reason: " ++ py_str error_message)
                err)).

(** The request body [dict] holding [entries]; everything but [entries]
    is fixed for a call. The key [namespace] is set after [entries], and
    only for a non-empty value. *)
Definition body_of (log_type : string) (entries : list Envelope) : json :=
  JObject ([("customerId", JString CUSTOMER_ID);
            ("logType", JString log_type);
            ("entries", JList (map envelope_json entries))]
           ++ match NAMESPACE with
              | Some ns => if Str.truthy ns then [("namespace", JString ns)] else []
              | None => []
              end).

(** The [while] loop of [ingest], from the state [index],
    [body["entries"]]; it returns the entries left in the body. *)
Fixpoint ingest_loop (fuel : nat) (http_session : AuthorizedSession) (log_type : string)
    (parsed_data : list Envelope) (index : nat) (entries : list Envelope)
    : M (list Envelope) :=
  match fuel with
  | O => lift OutOfFuel
  | S fuel' =>
      if (index <? List.length parsed_data)%nat then
        let next_batch_of_logs := slice parsed_data index (index + LOG_BATCH_SIZE) in
        let size_of_current_payload :=
          getsizeof (Json.dumps (body_of log_type entries)) in
        let size_of_next_batch :=
          getsizeof (Json.dumps (JList (map envelope_json next_batch_of_logs))) in
        let flush :=
          _send_logs_to_chronicle http_session (body_of log_type entries) REGION ;;;
          ingest_loop fuel' http_session log_type parsed_data index [] in
        if size_of_next_batch >=? SIZE_THRESHOLD_BYTES then
          match nth_error parsed_data index with
          | None => raise IndexError
          | Some log =>
              let size_of_next_log := getsizeof (Json.dumps (envelope_json log)) in
              if size_of_current_payload + size_of_next_log <=? SIZE_THRESHOLD_BYTES
              then ingest_loop fuel' http_session log_type parsed_data
                     (index + 1) (entries ++ [log])
              else flush
          end
        else if size_of_current_payload + size_of_next_batch <=? SIZE_THRESHOLD_BYTES
        then ingest_loop fuel' http_session log_type parsed_data
               (index + LOG_BATCH_SIZE) (entries ++ next_batch_of_logs)
        else flush
      else ret entries
  end.

(** [ingest(data, log_type)], run for at most [fuel] iterations of its
    loop, then the flush of what is left in the body. *)
Definition ingest (fuel : nat) (account : Credentials)
    (data : list json) (log_type : string) : M unit :=
  http_session <- initialize_http_session account ;;
  let parsed_data := map (fun i => mkEnvelope (Json.dumps i)) data in
  entries <- ingest_loop fuel http_session log_type parsed_data 0 [] ;;
  match entries with
  | [] => ret tt
  | _ => _send_logs_to_chronicle http_session (body_of log_type entries) REGION
  end.

(** [[s.strip() for s in list_content if s.strip()]]: an element without
    [strip], that is any element that is not a [str], raises. *)
Fixpoint stripped (list_content : list json) : result (list string) :=
  match list_content with
  | [] => Ok []
  | JString s :: rest =>
      match stripped rest with
      | Ok l => Ok (if Str.truthy (Str.strip s) then Str.strip s :: l else l)
      | other => other
      end
  | _ :: _ => Raise AttributeError
  end.

(** [get_reference_list(list_name)]; [None] is the value of falling off
    the end of the function. *)
Definition get_reference_list (account : Credentials) (list_name : string)
    : M (option (list string)) :=
  http_session <- initialize_http_session account ;;
  let url :=
    if negb (Str.lower REGION =? "us")%string
    then "https://" ++ Str.lower REGION ++ "-" ++ REFERENCE_LIST_API_BASE_URL
           ++ "/v2/lists/" ++ list_name
    else "https://" ++ REFERENCE_LIST_API_BASE_URL ++ "/v2/lists/" ++ list_name in
  let header := [("Content-Type", "application/json")] in
  response <- request http_session (mkRequest "GET" url None header) ;;
  try_except
    (lift (raise_for_status response) ;;;
     if response_bool response then
       v <- lift (response_json response) ;;
       list_content <- lift (py_get v "lines" (JList [])) ;;
       items <- lift (py_iter list_content) ;;
       stripped_list_content <- lift (stripped items) ;;
       ret (Some stripped_list_content)
     else ret None)
    is_Exception
    (fun err =>
       raise (RuntimeError
                ("Error occurred while fetching reference list " ++ list_name
                 ++ ". Status code: " ++ Str.of_Z (status_code response)
                 ++ ". Reason: " ++ str_exn err)
                err)).

End Program.

(** The unit the loop tries next at [index], the probe batch or, once the
    probe batch measures at least the threshold, the single next entry,
    fits beside an empty body. *)
Definition next_unit_fits (str_header : nat) (CUSTOMER_ID : string)
    (NAMESPACE : option string) (log_type : string)
    (parsed_data : list Envelope) (index : nat) : Prop :=
  let batch := slice parsed_data index (index + LOG_BATCH_SIZE) in
  let probe := getsizeof str_header (Json.dumps (JList (map envelope_json batch))) in
  let empty :=
    getsizeof str_header (Json.dumps (body_of CUSTOMER_ID NAMESPACE log_type [])) in
  if probe >=? SIZE_THRESHOLD_BYTES
  then forall e, nth_error parsed_data index = Some e ->
                 empty + getsizeof str_header (Json.dumps (envelope_json e))
                 <= SIZE_THRESHOLD_BYTES
  else empty + probe <= SIZE_THRESHOLD_BYTES.

(** ** Observations on the trace, and the inputs used below *)

(** The entries carried by a request: the list under [entries] of its body. *)
Definition request_entries (req : Request) : list json :=
  match payload req with
  | Some (JObject kvs) =>
      match Json.get "entries" kvs JNull with
      | JList l => l
      | _ => []
      end
  | _ => []
  end.

(** The entries a trace delivers, in the order of the sends. *)
Definition delivered (trace : list Request) : list json :=
  List.concat (map request_entries trace).

(** Bytes of the body on the wire: the session serialises [json=] with
    [json.dumps], whose output is ASCII, one byte per character. *)
Definition wire_size (req : Request) : Z :=
  match payload req with
  | Some b => Str.len (Json.dumps b)
  | None => 0
  end.

(** A response after which [_send_logs_to_chronicle] returns: the status is
    not an error status and the body is a JSON document. *)
Definition accepted (r : Response) : Prop :=
  raise_for_status r = Ok tt /\ exists v, json_body r = Some v.

(** [hay] contains [needle]. *)
Definition contains (hay needle : string) : Prop :=
  exists pre post, hay = pre ++ needle ++ post.

(** The request [_send_logs_to_chronicle] makes for a body and a region. *)
Definition ingestion_request (b : json) (region : string) : Request :=
  mkRequest "POST"
    (if negb (Str.lower region =? "us")%string
     then "https://" ++ Str.lower region ++ "-" ++ INGESTION_API_BASE_URL
            ++ "/v2/unstructuredlogentries:batchCreate"
     else "https://" ++ INGESTION_API_BASE_URL
            ++ "/v2/unstructuredlogentries:batchCreate")
    (Some b) [("Content-Type", "application/json")].

(** The request [get_reference_list] makes for a region and a list name. *)
Definition reference_list_request (region list_name : string) : Request :=
  mkRequest "GET"
    (if negb (Str.lower region =? "us")%string
     then "https://" ++ Str.lower region ++ "-" ++ REFERENCE_LIST_API_BASE_URL
            ++ "/v2/lists/" ++ list_name
     else "https://" ++ REFERENCE_LIST_API_BASE_URL ++ "/v2/lists/" ++ list_name)
    None [("Content-Type", "application/json")].

(** The reason of an ingestion error in the words of the specification:
    the field [error] of the decoded body, a fixed text when the body does
    not decode. The code adds a second fixed text for a decoded object
    without the field. *)
Definition spec_reason (repr_json : json -> string) (r : Response) : string :=
  match json_body r with
  | Some (JObject kvs) => py_str repr_json (Json.get "error" kvs (JString "Unknown error"))
  | _ => "Failed to parse error response from Chronicle"
  end.

(** An endpoint that answers every request with 200 and the empty object. *)
Definition accept_all : Session :=
  fun _ _ => mkResponse 200 (Some (JObject [])).

(** An endpoint that always gives the same answer. *)
Definition always (r : Response) : Session := fun _ _ => r.

(** The object header of an ASCII [str] on 64-bit CPython up to 3.11
    ([sys.getsizeof] of the empty string is 49); it is 40 from 3.12 on. *)
Definition CPYTHON_STR_HEADER : nat := 48.

Definition no_repr : json -> string := fun _ => "<repr>".
Definition no_str : exn -> string := fun _ => "<exception>".

(** A record that is one string of [n] letters, and its envelope. *)
Definition text_record (n : N) : json := JString (Str.replicate (N.to_nat n) "a").

Definition text_envelope (n : N) : Envelope := mkEnvelope (Json.dumps (text_record n)).

(** The body without entries for customer [cust], log type [STIX] and no
    name space, and the request that carries it to the region [us]. *)
Definition empty_body : json := body_of "cust" None "STIX" [].

Definition empty_request : Request := ingestion_request empty_body "us".

(** The reference list in the words of the specification: every line
    trimmed, the empty results dropped, the order kept. *)
Definition spec_reference_list (lines : list string) : list string :=
  filter (fun s => negb (s =? EmptyString)%string) (map Str.strip lines).

(** Length of the entries of a body once joined by [", "]. *)
Definition entries_len (es : list Envelope) : Z :=
  Str.len (String.concat ", " (map Json.dumps (map envelope_json es))).

(** The unit the loop tries next at [index] does not fit beside the
    entries the body holds: the branch that sends the body is taken. *)
Definition next_unit_overflows (str_header : nat) (CUSTOMER_ID : string)
    (NAMESPACE : option string) (log_type : string)
    (parsed_data : list Envelope) (index : nat) (entries : list Envelope) : Prop :=
  let batch := slice parsed_data index (index + LOG_BATCH_SIZE) in
  let probe := getsizeof str_header (Json.dumps (JList (map envelope_json batch))) in
  let current :=
    getsizeof str_header (Json.dumps (body_of CUSTOMER_ID NAMESPACE log_type entries)) in
  (SIZE_THRESHOLD_BYTES <= probe
   /\ exists e, nth_error parsed_data index = Some e
                /\ SIZE_THRESHOLD_BYTES
                   < current + getsizeof str_header (Json.dumps (envelope_json e)))
  \/ (probe < SIZE_THRESHOLD_BYTES /\ SIZE_THRESHOLD_BYTES < current + probe).

(** The exceptions [_send_logs_to_chronicle] lets out. *)
Definition send_error (e : exn) : Prop :=
  (exists message cause, e = RuntimeError message cause) \/ e = AttributeError.

(** A 4xx or 5xx status. *)
Definition error_status (r : Response) : Prop :=
  400 <= status_code r < 600.

(** The characters of a string. *)
Fixpoint string_chars (s : string) : list ascii :=
  match s with
  | EmptyString => []
  | String c r => c :: string_chars r
  end.

(** Every request of [sent], made after the history [log], obtained a
    response, and one the send accepts. *)
Fixpoint answered_trace (a : AuthorizedSession) (log sent : list Request) : Prop :=
  match sent with
  | [] => True
  | q :: rest =>
      (exists r, a log q = Some r /\ accepted r)
      /\ answered_trace a (log ++ [q]) rest
  end.

(** A session none of whose requests obtains a response. *)
Definition unreachable : AuthorizedSession := fun _ _ => None.

(** ** Strings and sizes *)

(** Replaces the length of every closed string of the goal by its value. *)
Ltac eval_lens :=
  repeat match goal with
         | |- context [Str.len ?s] =>
             let v := eval vm_compute in (Str.len s) in
             lazymatch v with
             | Z0 => idtac
             | Zpos _ => idtac
             end;
             progress change (Str.len s) with v
         end.

Lemma bind_ret {A B} (a : A) (k : A -> M B) : bind (ret a) k = k a.
Proof. reflexivity. Qed.

Lemma len_append (a b : string) : Str.len (a ++ b) = Str.len a + Str.len b.
Proof.
  unfold Str.len. rewrite <- Nat2Z.inj_add. f_equal.
  induction a as [|c a IH]; simpl; [reflexivity | now rewrite IH].
Qed.

Lemma len_nonneg (a : string) : 0 <= Str.len a.
Proof. unfold Str.len. lia. Qed.

Lemma len_String (c : ascii) (s : string) : Str.len (String c s) = 1 + Str.len s.
Proof. unfold Str.len. simpl String.length. lia. Qed.

Lemma len_replicate (n : nat) (c : ascii) : Str.len (Str.replicate n c) = Z.of_nat n.
Proof.
  induction n as [|n IH]; [reflexivity|].
  change (Str.replicate (S n) c) with (String c (Str.replicate n c)).
  rewrite len_String, IH. lia.
Qed.

Lemma append_assoc (a b c : string) : (a ++ b) ++ c = a ++ b ++ c.
Proof. induction a as [|x a IH]; simpl; [reflexivity | now rewrite IH]. Qed.

Lemma escape_append (a b : string) :
  Json.escape (a ++ b) = Json.escape a ++ Json.escape b.
Proof.
  induction a as [|x a IH]; simpl; [reflexivity|].
  now rewrite IH, append_assoc.
Qed.

Lemma escape_replicate_letter (n : nat) :
  Json.escape (Str.replicate n "a") = Str.replicate n "a".
Proof. induction n as [|n IH]; simpl; [reflexivity | now rewrite IH]. Qed.

Lemma concat_cons_len (sep x : string) (l : list string) :
  Str.len (String.concat sep (x :: l)) =
  Str.len x + match l with [] => 0 | _ => Str.len sep + Str.len (String.concat sep l) end.
Proof.
  destruct l as [|y l]; simpl String.concat.
  - lia.
  - now rewrite !len_append.
Qed.

Lemma concat_app_len (sep : string) (l1 l2 : list string) :
  Str.len (String.concat sep (l1 ++ l2)) =
  Str.len (String.concat sep l1) + Str.len (String.concat sep l2)
  + match l1, l2 with
    | _ :: _, _ :: _ => Str.len sep
    | _, _ => 0
    end.
Proof.
  induction l1 as [|x l1 IH].
  - change ([] ++ l2)%list with l2.
    change (Str.len (String.concat sep [])) with 0. lia.
  - change ((x :: l1) ++ l2)%list with (x :: (l1 ++ l2))%list.
    rewrite !concat_cons_len, IH.
    destruct l1 as [|y l1], l2 as [|z l2]; simpl app; cbn match; try lia.
    + change (String.concat sep []) with EmptyString.
      change (Str.len EmptyString) with 0. lia.
    + change (String.concat sep []) with EmptyString.
      change (Str.len EmptyString) with 0. lia.
Qed.

Lemma entries_len_app (es fs : list Envelope) :
  entries_len (es ++ fs) =
  entries_len es + entries_len fs
  + match es, fs with _ :: _, _ :: _ => 2 | _, _ => 0 end.
Proof.
  unfold entries_len. rewrite !map_app, concat_app_len.
  destruct es, fs; reflexivity.
Qed.

Lemma entries_len_nonneg (es : list Envelope) : 0 <= entries_len es.
Proof. apply len_nonneg. Qed.

Lemma entries_len_single (e : Envelope) :
  entries_len [e] = Str.len (Json.dumps (envelope_json e)).
Proof. reflexivity. Qed.

Lemma batch_len (es : list Envelope) :
  Str.len (Json.dumps (JList (map envelope_json es))) = 2 + entries_len es.
Proof.
  unfold entries_len. cbn [Json.dumps]. rewrite !len_append.
  change (Str.len "[") with 1. change (Str.len "]") with 1. lia.
Qed.

Lemma envelope_len (e : Envelope) :
  Str.len (Json.dumps (envelope_json e)) = 15 + Str.len (Json.escape (logText e)).
Proof.
  unfold envelope_json. cbn [Json.dumps map String.concat Json.quote].
  unfold Json.quote. rewrite !len_append.
  change (Json.escape "logText") with "logText".
  change (Str.len Str.dquote) with 1. change (Str.len "logText") with 7.
  change (Str.len ": ") with 2. change (Str.len "{") with 1.
  change (Str.len "}") with 1. lia.
Qed.

Section Properties.

Variable str_header : nat.
Variable repr_json : json -> string.
Variable str_exn : exn -> string.
Variable CUSTOMER_ID REGION : string.
Variable NAMESPACE : option string.

Local Abbreviation body := (body_of CUSTOMER_ID NAMESPACE).
Local Abbreviation T := SIZE_THRESHOLD_BYTES.
Local Abbreviation sizeof := (getsizeof str_header).
Local Abbreviation send := (_send_logs_to_chronicle repr_json).
Local Abbreviation loop := (ingest_loop str_header repr_json CUSTOMER_ID REGION NAMESPACE).
Local Abbreviation run := (ingest str_header repr_json CUSTOMER_ID REGION NAMESPACE).

Lemma body_len (log_type : string) (es : list Envelope) :
  Str.len (Json.dumps (body log_type es)) =
  Str.len (Json.dumps (body log_type [])) + entries_len es.
Proof.
  unfold body_of, entries_len.
  destruct NAMESPACE as [ns|]; [destruct (Str.truthy ns)|];
    cbn [app map Json.dumps String.concat];
    rewrite !len_append;
    change (Str.len EmptyString) with 0; lia.
Qed.

Lemma sizeof_len (s : string) : sizeof s = Z.of_nat str_header + Str.len s + 1.
Proof. reflexivity. Qed.

(** A send always makes exactly one request, and either returns or raises. *)
Lemma send_cases (s : Session) (b : json) (region : string) (log : list Request) :
  let req := ingestion_request b region in
  (accepted (s log req) /\ send s b region log = ((log ++ [req])%list, Ok tt))
  \/ (~ accepted (s log req) /\
      exists e, send s b region log = ((log ++ [req])%list, Raise e)).
Proof.
  intro req. unfold _send_logs_to_chronicle, accepted.
  fold (ingestion_request b region). fold req.
  unfold bind at 1, request, answering. cbv beta iota.
  unfold try_except, bind, lift, raise, ret, response_json, is_Exception.
  assert (Hnf : raise_for_status (s log req) <> OutOfFuel).
  { unfold raise_for_status.
    destruct ((400 <=? status_code (s log req)) && (status_code (s log req) <? 600));
      discriminate. }
  destruct (raise_for_status (s log req)) as [[]|e|] eqn:Hst;
    [| |contradiction];
    destruct (json_body (s log req)) as [v|] eqn:Hj; cbn.
  - left. split; [split; [reflexivity | now exists v] | reflexivity].
  - right. split; [intros [_ [v Hv]]; discriminate | eexists; reflexivity].
  - right. split; [intros [Hc _]; discriminate |].
    destruct v; cbn; eexists; reflexivity.
  - right. split; [intros [Hc _]; discriminate | eexists; reflexivity].
Qed.

Lemma send_accepted (s : Session) (b : json) (region : string) (log : list Request) :
  accepted (s log (ingestion_request b region)) ->
  send s b region log = ((log ++ [ingestion_request b region])%list, Ok tt).
Proof.
  intro Ha. destruct (send_cases s b region log) as [[_ H]|[Hn _]];
    [exact H | contradiction].
Qed.

Lemma loop_S (fuel : nat) (s : AuthorizedSession) (log_type : string)
    (parsed_data : list Envelope) (index : nat) (entries : list Envelope) :
  loop (S fuel) s log_type parsed_data index entries =
  if (index <? List.length parsed_data)%nat then
    let next_batch_of_logs := slice parsed_data index (index + LOG_BATCH_SIZE) in
    let size_of_current_payload := sizeof (Json.dumps (body log_type entries)) in
    let size_of_next_batch :=
      sizeof (Json.dumps (JList (map envelope_json next_batch_of_logs))) in
    let flush :=
      send s (body log_type entries) REGION ;;;
      loop fuel s log_type parsed_data index [] in
    if size_of_next_batch >=? T then
      match nth_error parsed_data index with
      | None => raise IndexError
      | Some log =>
          let size_of_next_log := sizeof (Json.dumps (envelope_json log)) in
          if size_of_current_payload + size_of_next_log <=? T
          then loop fuel s log_type parsed_data (index + 1) (entries ++ [log])
          else flush
      end
    else if size_of_current_payload + size_of_next_batch <=? T
    then loop fuel s log_type parsed_data
           (index + LOG_BATCH_SIZE) (entries ++ next_batch_of_logs)
    else flush
  else ret entries.
Proof. reflexivity. Qed.

(** What a flush does to the trace: the body goes out as one request, and
    the loop goes on from an empty body only if the send returned. *)
Lemma flush_cases (s : Session) (b : json) (k : M (list Envelope)) (log : list Request) :
  let req := ingestion_request b REGION in
  (accepted (s log req) /\
   (send s b REGION ;;; k) log = k (log ++ [req])%list)
  \/ (~ accepted (s log req) /\
      exists e, (send s b REGION ;;; k) log = ((log ++ [req])%list, Raise e)).
Proof.
  intro req. unfold bind.
  destruct (send_cases s b REGION log) as [[Ha ->]|[Hn [e ->]]].
  - left. split; [exact Ha | reflexivity].
  - right. split; [exact Hn | now exists e].
Qed.

(** Appending what the guards of the loop let through keeps the body
    within the threshold. *)
Lemma append_one_fits (log_type : string) (entries : list Envelope) (e : Envelope) :
  sizeof (Json.dumps (body log_type entries)) + sizeof (Json.dumps (envelope_json e)) <= T ->
  Str.len (Json.dumps (body log_type (entries ++ [e]))) <= T.
Proof.
  rewrite !sizeof_len, (body_len log_type entries), (body_len log_type (entries ++ [e])).
  rewrite entries_len_app, entries_len_single.
  pose proof (entries_len_nonneg entries).
  destruct entries; lia.
Qed.

Lemma append_batch_fits (log_type : string) (entries batch : list Envelope) :
  sizeof (Json.dumps (body log_type entries))
  + sizeof (Json.dumps (JList (map envelope_json batch))) <= T ->
  Str.len (Json.dumps (body log_type (entries ++ batch))) <= T.
Proof.
  rewrite !sizeof_len, (body_len log_type entries), (body_len log_type (entries ++ batch)).
  rewrite entries_len_app, batch_len.
  destruct entries, batch; lia.
Qed.

Lemma loop_sends_within (log_type : string) (parsed_data : list Envelope) :
  Str.len (Json.dumps (body log_type [])) <= T ->
  forall (fuel : nat) (s : Session) (index : nat) (entries : list Envelope)
         (log : list Request),
    Str.len (Json.dumps (body log_type entries)) <= T ->
    exists sent r,
      loop fuel s log_type parsed_data index entries log = ((log ++ sent)%list, r)
      /\ Forall (fun q => wire_size q <= T) sent
      /\ (forall es, r = Ok es -> Str.len (Json.dumps (body log_type es)) <= T).
Proof.
  intros Hempty fuel s. induction fuel as [|fuel IH]; intros index entries log Hfit.
  - exists [], OutOfFuel. rewrite app_nil_r. repeat split; [constructor | discriminate].
  - rewrite loop_S.
    assert (Hflush :
      exists sent r,
        (send s (body log_type entries) REGION ;;;
         loop fuel s log_type parsed_data index []) log = ((log ++ sent)%list, r)
        /\ Forall (fun q => wire_size q <= T) sent
        /\ (forall es, r = Ok es -> Str.len (Json.dumps (body log_type es)) <= T)).
    { destruct (flush_cases s (body log_type entries)
                  (loop fuel s log_type parsed_data index []) log)
        as [[_ ->]|[_ [e ->]]].
      - destruct (IH index [] (log ++ [ingestion_request (body log_type entries) REGION])%list
                    Hempty) as (sent & r & Heq & Hall & Hr).
        exists (ingestion_request (body log_type entries) REGION :: sent), r.
        rewrite Heq, <- app_assoc. repeat split; [| exact Hr].
        constructor; [exact Hfit | exact Hall].
      - exists [ingestion_request (body log_type entries) REGION], (Raise e).
        repeat split; [| discriminate].
        constructor; [exact Hfit | constructor]. }
    destruct (index <? List.length parsed_data)%nat.
    + cbv zeta.
      destruct (sizeof (Json.dumps (JList (map envelope_json
                  (slice parsed_data index (index + LOG_BATCH_SIZE))))) >=? T).
      * destruct (nth_error parsed_data index) as [e|].
        -- destruct (Z.leb_spec
                       (sizeof (Json.dumps (body log_type entries))
                        + sizeof (Json.dumps (envelope_json e))) T) as [Hle|_].
           ++ apply IH. now apply append_one_fits.
           ++ exact Hflush.
        -- exists [], (Raise IndexError). rewrite app_nil_r.
           repeat split; [constructor | discriminate].
      * destruct (Z.leb_spec
                    (sizeof (Json.dumps (body log_type entries))
                     + sizeof (Json.dumps (JList (map envelope_json
                         (slice parsed_data index (index + LOG_BATCH_SIZE)))))) T)
          as [Hle|_].
        -- apply IH. now apply append_batch_fits.
        -- exact Hflush.
    + exists [], (Ok entries). rewrite app_nil_r.
      repeat split; [constructor | now intros es [= <-]].
Qed.

(** When the body without any entry, that is the fixed fields of the
    request, serialises within the threshold, every request body [ingest]
    sends to an answering endpoint is at most [SIZE_THRESHOLD_BYTES] bytes
    on the wire, the bodies without entries included. *)
Theorem sent_bodies_within_threshold (log_type : string) :
  Str.len (Json.dumps (body log_type [])) <= T ->
  forall (fuel : nat) (s : Session) (data : list json) (log : list Request),
  exists sent,
    fst (run fuel s data log_type log) = (log ++ sent)%list
    /\ Forall (fun q => wire_size q <= T) sent.
Proof.
  intros Hempty fuel s data log. unfold ingest, initialize_http_session, authorized. rewrite bind_ret. unfold bind.
  destruct (loop_sends_within log_type
              (map (fun i => mkEnvelope (Json.dumps i)) data) Hempty fuel s 0%nat [] log Hempty)
    as (sent & r & -> & Hall & Hr).
  destruct r as [es|e|].
  - destruct es as [|e0 es].
    + exists sent. split; [reflexivity | exact Hall].
    + specialize (Hr _ eq_refl).
      exists (sent ++ [ingestion_request (body log_type (e0 :: es)) REGION])%list.
      split.
      * destruct (send_cases s (body log_type (e0 :: es)) REGION (log ++ sent)%list)
          as [[_ ->]|[_ [e ->]]]; cbn [fst]; now rewrite app_assoc.
      * apply Forall_app. split; [exact Hall |].
        constructor; [exact Hr | constructor].
  - exists sent. split; [reflexivity | exact Hall].
  - exists sent. split; [reflexivity | exact Hall].
Qed.

(** The livelock of the loop: with nothing accumulated, when the unit the
    loop tries next (the probe batch, or the single next entry once the
    probe batch measures at least the threshold) does not fit beside the
    empty body, every iteration sends the empty body and leaves the cursor
    where it is. *)
Lemma livelock (s : Session) (log_type : string) (parsed_data : list Envelope)
    (index : nat) :
  let batch := slice parsed_data index (index + LOG_BATCH_SIZE) in
  let size_of_next_batch := sizeof (Json.dumps (JList (map envelope_json batch))) in
  let size_of_empty_payload := sizeof (Json.dumps (body log_type [])) in
  (forall log req, accepted (s log req)) ->
  (index < List.length parsed_data)%nat ->
  (T <= size_of_next_batch ->
   exists e, nth_error parsed_data index = Some e /\
             T < size_of_empty_payload + sizeof (Json.dumps (envelope_json e))) ->
  (size_of_next_batch < T -> T < size_of_empty_payload + size_of_next_batch) ->
  forall (fuel : nat) (log : list Request),
    loop fuel s log_type parsed_data index [] log =
    ((log ++ repeat (ingestion_request (body log_type []) REGION) fuel)%list, OutOfFuel).
Proof.
  intros batch size_of_next_batch size_of_empty_payload Hacc Hidx Hsingle Hbatch fuel.
  induction fuel as [|fuel IH]; intro log.
  - cbn [repeat]. now rewrite app_nil_r.
  - rewrite loop_S.
    apply Nat.ltb_lt in Hidx. rewrite Hidx. cbv zeta.
    fold batch. fold size_of_next_batch. fold size_of_empty_payload.
    assert (Hflush :
      (send s (body log_type []) REGION ;;; loop fuel s log_type parsed_data index []) log
      = ((log ++ repeat (ingestion_request (body log_type []) REGION) (S fuel))%list,
         OutOfFuel)).
    { unfold bind. rewrite (send_accepted s _ REGION log (Hacc _ _)), IH.
      cbn [repeat]. now rewrite <- app_assoc. }
    rewrite Z.geb_leb.
    destruct (Z.leb_spec T size_of_next_batch) as [Hge|Hlt].
    + destruct (Hsingle Hge) as (e & -> & Hbig).
      destruct (Z.leb_spec (size_of_empty_payload + sizeof (Json.dumps (envelope_json e))) T);
        [lia | exact Hflush].
    + specialize (Hbatch Hlt).
      destruct (Z.leb_spec (size_of_empty_payload + size_of_next_batch) T);
        [lia | exact Hflush].
Qed.

Lemma livelock_ingest (s : Session) (log_type : string) (data : list json) :
  let parsed_data := map (fun i => mkEnvelope (Json.dumps i)) data in
  (forall (fuel : nat) (log : list Request),
     loop fuel s log_type parsed_data 0 [] log =
     ((log ++ repeat (ingestion_request (body log_type []) REGION) fuel)%list, OutOfFuel)) ->
  forall fuel : nat,
    run fuel s data log_type [] =
    (repeat (ingestion_request (body log_type []) REGION) fuel, OutOfFuel).
Proof.
  intros parsed_data H fuel. unfold ingest, initialize_http_session, authorized. rewrite bind_ret. unfold bind. fold parsed_data.
  now rewrite H.
Qed.

(** *** What is delivered is what was read, in order *)

Lemma request_entries_body (log_type : string) (es : list Envelope) (region : string) :
  request_entries (ingestion_request (body log_type es) region) = map envelope_json es.
Proof. reflexivity. Qed.

Lemma delivered_cons (q : Request) (trace : list Request) :
  delivered (q :: trace) = (request_entries q ++ delivered trace)%list.
Proof. reflexivity. Qed.

Lemma delivered_app (t1 t2 : list Request) :
  delivered (t1 ++ t2) = (delivered t1 ++ delivered t2)%list.
Proof. unfold delivered. now rewrite map_app, concat_app. Qed.

Lemma skipn_nth_error {A} (l : list A) (i : nat) (x : A) :
  nth_error l i = Some x -> skipn i l = x :: skipn (S i) l.
Proof.
  revert i. induction l as [|y l IH]; intros [|i] H; try discriminate.
  - now injection H as ->.
  - cbn [nth_error] in H. cbn [skipn]. now apply IH.
Qed.

Lemma slice_skipn {A} (l : list A) (i n : nat) :
  (slice l i (i + n) ++ skipn (i + n) l)%list = skipn i l.
Proof.
  unfold slice. replace (i + n - i)%nat with n by lia.
  rewrite (Nat.add_comm i n), <- skipn_skipn. apply firstn_skipn.
Qed.

(** The entries pending when the loop is entered (those in the body, then
    those from the cursor on) are, when it returns, those delivered on the
    way followed by those left in the body; when it raises or is cut short,
    those delivered are a prefix of them. *)
Lemma loop_delivers (log_type : string) (parsed_data : list Envelope) :
  forall (fuel : nat) (s : Session) (index : nat) (entries : list Envelope)
         (log : list Request),
  exists sent r,
    loop fuel s log_type parsed_data index entries log = ((log ++ sent)%list, r)
    /\ exists rest,
         map envelope_json (entries ++ skipn index parsed_data)
         = (delivered sent ++ rest)%list
         /\ (forall es, r = Ok es -> rest = map envelope_json es).
Proof.
  intros fuel s. induction fuel as [|fuel IH]; intros index entries log.
  - exists [], OutOfFuel. rewrite app_nil_r. split; [reflexivity|].
    eexists. split; [reflexivity | discriminate].
  - rewrite loop_S.
    assert (Hflush :
      exists sent r,
        (send s (body log_type entries) REGION ;;;
         loop fuel s log_type parsed_data index []) log = ((log ++ sent)%list, r)
        /\ exists rest,
             map envelope_json (entries ++ skipn index parsed_data)
             = (delivered sent ++ rest)%list
             /\ (forall es, r = Ok es -> rest = map envelope_json es)).
    { destruct (flush_cases s (body log_type entries)
                  (loop fuel s log_type parsed_data index []) log)
        as [[_ ->]|[_ [e ->]]].
      - destruct (IH index [] (log ++ [ingestion_request (body log_type entries) REGION])%list)
          as (sent & r & Heq & rest & Hrest & Hr).
        exists (ingestion_request (body log_type entries) REGION :: sent), r.
        rewrite Heq, <- app_assoc. split; [reflexivity|].
        exists rest. split; [| exact Hr].
        rewrite delivered_cons, request_entries_body, map_app, <- app_assoc.
        f_equal. exact Hrest.
      - exists [ingestion_request (body log_type entries) REGION], (Raise e).
        split; [reflexivity|].
        exists (map envelope_json (skipn index parsed_data)).
        split; [| discriminate].
        rewrite delivered_cons, request_entries_body, map_app.
        cbn [delivered List.concat map]. now rewrite app_nil_r. }
    destruct (index <? List.length parsed_data)%nat eqn:Hidx.
    + cbv zeta.
      destruct (sizeof (Json.dumps (JList (map envelope_json
                  (slice parsed_data index (index + LOG_BATCH_SIZE))))) >=? T).
      * destruct (nth_error parsed_data index) as [e|] eqn:Hnth.
        -- destruct (sizeof (Json.dumps (body log_type entries))
                     + sizeof (Json.dumps (envelope_json e)) <=? T).
           ++ destruct (IH (index + 1)%nat (entries ++ [e])%list log)
                as (sent & r & Heq & rest & Hrest & Hr).
              exists sent, r. split; [exact Heq|]. exists rest. split; [| exact Hr].
              rewrite <- Hrest, <- app_assoc, (skipn_nth_error _ _ _ Hnth).
              now rewrite Nat.add_1_r.
           ++ exact Hflush.
        -- exists [], (Raise IndexError). rewrite app_nil_r. split; [reflexivity|].
           eexists. split; [reflexivity | discriminate].
      * destruct (sizeof (Json.dumps (body log_type entries))
                  + sizeof (Json.dumps (JList (map envelope_json
                      (slice parsed_data index (index + LOG_BATCH_SIZE))))) <=? T).
        -- destruct (IH (index + LOG_BATCH_SIZE)%nat
                       (entries ++ slice parsed_data index (index + LOG_BATCH_SIZE))%list log)
             as (sent & r & Heq & rest & Hrest & Hr).
           exists sent, r. split; [exact Heq|]. exists rest. split; [| exact Hr].
           now rewrite <- Hrest, <- app_assoc, slice_skipn.
        -- exact Hflush.
    + exists [], (Ok entries). rewrite app_nil_r. split; [reflexivity|].
      exists (map envelope_json entries). split; [| now intros es [= <-]].
      apply Nat.ltb_ge in Hidx. rewrite (skipn_all2 _ Hidx), app_nil_r.
      reflexivity.
Qed.

(** Whatever the endpoint does and however long the loop is run, the
    entries [ingest] has sent are a prefix of the envelopes of the input, in
    order; when [ingest] returns they are all of them. *)
Lemma ingest_delivers_prefix (fuel : nat) (s : Session) (data : list json)
    (log_type : string) (log : list Request) :
  let envelopes := map envelope_json (map (fun i => mkEnvelope (Json.dumps i)) data) in
  exists sent r,
    run fuel s data log_type log = ((log ++ sent)%list, r)
    /\ exists rest, envelopes = (delivered sent ++ rest)%list
                    /\ (r = Ok tt -> rest = []).
Proof.
  intro envelopes. unfold ingest, initialize_http_session, authorized. rewrite bind_ret. unfold bind.
  destruct (loop_delivers log_type (map (fun i => mkEnvelope (Json.dumps i)) data)
              fuel s 0%nat [] log) as (sent & r & -> & rest & Hrest & Hr).
  cbn [app skipn] in Hrest. fold envelopes in Hrest.
  destruct r as [es|e|].
  - specialize (Hr es eq_refl). subst rest. destruct es as [|e0 es].
    + exists sent, (Ok tt). split; [reflexivity|]. exists []. now split.
    + destruct (send_cases s (body log_type (e0 :: es)) REGION (log ++ sent)%list)
        as [[_ ->]|[_ [e ->]]]; rewrite <- app_assoc.
      * eexists _, _. split; [reflexivity|]. exists []. split; [| reflexivity].
        rewrite app_nil_r, delivered_app, Hrest. f_equal.
        unfold delivered. cbn [map List.concat].
        now rewrite request_entries_body, app_nil_r.
      * eexists _, _. split; [reflexivity|]. exists []. split; [| reflexivity].
        rewrite app_nil_r, delivered_app, Hrest. f_equal.
        unfold delivered. cbn [map List.concat].
        now rewrite request_entries_body, app_nil_r.
  - exists sent, (Raise e). split; [reflexivity|]. exists rest. split; [exact Hrest | discriminate].
  - exists sent, OutOfFuel. split; [reflexivity|]. exists rest. split; [exact Hrest | discriminate].
Qed.

Lemma prefix_firstn {A} (l p rest : list A) :
  l = (p ++ rest)%list -> p = firstn (List.length p) l.
Proof.
  intros ->. rewrite firstn_app, Nat.sub_diag, firstn_all. cbn [firstn].
  now rewrite app_nil_r.
Qed.

(** Whatever the endpoint answers and wherever the run stops, the entries
    of the requests [ingest] has made, in the order of the sends, are the
    first envelopes of the input, none lost, repeated or out of order; when
    [ingest] returns they are all of them. *)
Theorem ingest_delivers_in_order
    (fuel : nat) (s : Session) (data : list json) (log_type : string)
    (log : list Request) :
  let envelopes := map envelope_json (map (fun i => mkEnvelope (Json.dumps i)) data) in
  exists sent,
    fst (run fuel s data log_type log) = (log ++ sent)%list
    /\ delivered sent = firstn (List.length (delivered sent)) envelopes
    /\ (snd (run fuel s data log_type log) = Ok tt -> delivered sent = envelopes).
Proof.
  intro envelopes.
  destruct (ingest_delivers_prefix fuel s data log_type log)
    as (sent & r & Hrun & rest & Hrest & Hr).
  fold envelopes in Hrest. exists sent. rewrite Hrun. cbn [fst snd].
  split; [reflexivity | split].
  - exact (prefix_firstn _ _ _ Hrest).
  - intro H. rewrite Hrest, (Hr H). now rewrite app_nil_r.
Qed.

(** *** The loop, one iteration at a time *)

Lemma loop_exit (fuel : nat) (s : AuthorizedSession) (log_type : string)
    (parsed_data : list Envelope) (index : nat) (entries : list Envelope)
    (log : list Request) :
  (List.length parsed_data <= index)%nat ->
  loop (S fuel) s log_type parsed_data index entries log = (log, Ok entries).
Proof.
  intro H. rewrite loop_S. apply Nat.ltb_ge in H. now rewrite H.
Qed.

Lemma loop_extend (fuel : nat) (s : AuthorizedSession) (log_type : string)
    (parsed_data : list Envelope) (index : nat) (entries : list Envelope)
    (log : list Request) :
  let batch := slice parsed_data index (index + LOG_BATCH_SIZE) in
  (index < List.length parsed_data)%nat ->
  sizeof (Json.dumps (JList (map envelope_json batch))) < T ->
  sizeof (Json.dumps (body log_type entries))
  + sizeof (Json.dumps (JList (map envelope_json batch))) <= T ->
  loop (S fuel) s log_type parsed_data index entries log =
  loop fuel s log_type parsed_data (index + LOG_BATCH_SIZE) (entries ++ batch) log.
Proof.
  intros batch Hidx Hprobe Hfit. rewrite loop_S.
  apply Nat.ltb_lt in Hidx. rewrite Hidx. cbv zeta. fold batch.
  rewrite Z.geb_leb.
  destruct (Z.leb_spec T (sizeof (Json.dumps (JList (map envelope_json batch)))));
    [lia|].
  destruct (Z.leb_spec (sizeof (Json.dumps (body log_type entries))
                        + sizeof (Json.dumps (JList (map envelope_json batch)))) T);
    [reflexivity | lia].
Qed.

Lemma loop_flush_batch (fuel : nat) (s : Session) (log_type : string)
    (parsed_data : list Envelope) (index : nat) (entries : list Envelope)
    (log : list Request) :
  let batch := slice parsed_data index (index + LOG_BATCH_SIZE) in
  (index < List.length parsed_data)%nat ->
  sizeof (Json.dumps (JList (map envelope_json batch))) < T ->
  T < sizeof (Json.dumps (body log_type entries))
      + sizeof (Json.dumps (JList (map envelope_json batch))) ->
  accepted (s log (ingestion_request (body log_type entries) REGION)) ->
  loop (S fuel) s log_type parsed_data index entries log =
  loop fuel s log_type parsed_data index []
    (log ++ [ingestion_request (body log_type entries) REGION])%list.
Proof.
  intros batch Hidx Hprobe Hfit Hacc. rewrite loop_S.
  apply Nat.ltb_lt in Hidx. rewrite Hidx. cbv zeta. fold batch.
  rewrite Z.geb_leb.
  destruct (Z.leb_spec T (sizeof (Json.dumps (JList (map envelope_json batch)))));
    [lia|].
  destruct (Z.leb_spec (sizeof (Json.dumps (body log_type entries))
                        + sizeof (Json.dumps (JList (map envelope_json batch)))) T);
    [lia|].
  unfold bind. now rewrite (send_accepted s _ REGION log Hacc).
Qed.

Lemma loop_append_one (fuel : nat) (s : AuthorizedSession) (log_type : string)
    (parsed_data : list Envelope) (index : nat) (entries : list Envelope)
    (log : list Request) (e : Envelope) :
  let batch := slice parsed_data index (index + LOG_BATCH_SIZE) in
  nth_error parsed_data index = Some e ->
  T <= sizeof (Json.dumps (JList (map envelope_json batch))) ->
  sizeof (Json.dumps (body log_type entries))
  + sizeof (Json.dumps (envelope_json e)) <= T ->
  loop (S fuel) s log_type parsed_data index entries log =
  loop fuel s log_type parsed_data (index + 1) (entries ++ [e]) log.
Proof.
  intros batch Hnth Hprobe Hfit. rewrite loop_S.
  assert (Hidx : (index < List.length parsed_data)%nat)
    by (apply nth_error_Some; congruence).
  apply Nat.ltb_lt in Hidx. rewrite Hidx. cbv zeta. fold batch.
  rewrite Z.geb_leb, Hnth.
  destruct (Z.leb_spec T (sizeof (Json.dumps (JList (map envelope_json batch)))));
    [| lia].
  destruct (Z.leb_spec (sizeof (Json.dumps (body log_type entries))
                        + sizeof (Json.dumps (envelope_json e))) T);
    [reflexivity | lia].
Qed.

Lemma loop_flush_single (fuel : nat) (s : Session) (log_type : string)
    (parsed_data : list Envelope) (index : nat) (entries : list Envelope)
    (log : list Request) (e : Envelope) :
  let batch := slice parsed_data index (index + LOG_BATCH_SIZE) in
  nth_error parsed_data index = Some e ->
  T <= sizeof (Json.dumps (JList (map envelope_json batch))) ->
  T < sizeof (Json.dumps (body log_type entries))
      + sizeof (Json.dumps (envelope_json e)) ->
  accepted (s log (ingestion_request (body log_type entries) REGION)) ->
  loop (S fuel) s log_type parsed_data index entries log =
  loop fuel s log_type parsed_data index []
    (log ++ [ingestion_request (body log_type entries) REGION])%list.
Proof.
  intros batch Hnth Hprobe Hfit Hacc. rewrite loop_S.
  assert (Hidx : (index < List.length parsed_data)%nat)
    by (apply nth_error_Some; congruence).
  apply Nat.ltb_lt in Hidx. rewrite Hidx. cbv zeta. fold batch.
  rewrite Z.geb_leb, Hnth.
  destruct (Z.leb_spec T (sizeof (Json.dumps (JList (map envelope_json batch)))));
    [| lia].
  destruct (Z.leb_spec (sizeof (Json.dumps (body log_type entries))
                        + sizeof (Json.dumps (envelope_json e))) T);
    [lia|].
  unfold bind. now rewrite (send_accepted s _ REGION log Hacc).
Qed.

Lemma sizeof_pos (str : string) : 0 < sizeof str.
Proof. rewrite sizeof_len. pose proof (len_nonneg str). lia. Qed.

(** C5 (amended). For an input of 250 records in which every probe batch
    fits beside an empty body within the threshold, and in which neither
    the second probe batch fits beside the first nor the third beside the
    second, [ingest] (every send being accepted) returns after exactly 3
    requests, carrying the first 100, the next 100 and the last 50 entries.
    Smaller probe batches accumulate in one body instead. *)
Theorem three_requests_of_100_100_50
    (s : Session) (data : list json) (log_type : string) (k : nat) :
  let parsed_data := map (fun i => mkEnvelope (Json.dumps i)) data in
  let W0 := slice parsed_data 0 100 in
  let W1 := slice parsed_data 100 200 in
  let W2 := slice parsed_data 200 300 in
  let probe W := sizeof (Json.dumps (JList (map envelope_json W))) in
  let current es := sizeof (Json.dumps (body log_type es)) in
  List.length data = 250%nat ->
  (forall log req, accepted (s log req)) ->
  current [] + probe W0 <= T ->
  current [] + probe W1 <= T ->
  current [] + probe W2 <= T ->
  T < current W0 + probe W1 ->
  T < current W1 + probe W2 ->
  run (6 + k) s data log_type [] =
  ([ingestion_request (body log_type W0) REGION;
    ingestion_request (body log_type W1) REGION;
    ingestion_request (body log_type W2) REGION], Ok tt)
  /\ map (fun q => List.length (request_entries q))
         [ingestion_request (body log_type W0) REGION;
          ingestion_request (body log_type W1) REGION;
          ingestion_request (body log_type W2) REGION] = [100; 100; 50]%nat.
Proof.
  intros parsed_data W0 W1 W2 probe current Hlen Hacc H0 H1 H2 H01 H12.
  assert (Hplen : List.length parsed_data = 250%nat)
    by (unfold parsed_data; now rewrite length_map).
  pose proof (sizeof_pos (Json.dumps (body log_type []))) as Hpos.
  fold (current []) in Hpos.
  split.
  - unfold ingest, initialize_http_session, authorized. rewrite bind_ret.
  fold parsed_data.
    change (6 + k)%nat with (S (S (S (S (S (S k)))))).
    unfold bind at 1.
    rewrite loop_extend;
      [| rewrite Hplen; lia
       | change (slice parsed_data 0 (0 + LOG_BATCH_SIZE)) with W0;
         fold (probe W0); lia
       | change (slice parsed_data 0 (0 + LOG_BATCH_SIZE)) with W0;
         fold (probe W0); fold (current []); lia ].
    change (0 + LOG_BATCH_SIZE)%nat with 100%nat.
    change ([] ++ slice parsed_data 0 100)%list with W0.
    rewrite loop_flush_batch;
      [| rewrite Hplen; lia
       | change (slice parsed_data 100 (100 + LOG_BATCH_SIZE)) with W1;
         fold (probe W1); lia
       | change (slice parsed_data 100 (100 + LOG_BATCH_SIZE)) with W1;
         fold (probe W1); fold (current W0); lia
       | apply Hacc ].
    rewrite loop_extend;
      [| rewrite Hplen; lia
       | change (slice parsed_data 100 (100 + LOG_BATCH_SIZE)) with W1;
         fold (probe W1); lia
       | change (slice parsed_data 100 (100 + LOG_BATCH_SIZE)) with W1;
         fold (probe W1); fold (current []); lia ].
    change (100 + LOG_BATCH_SIZE)%nat with 200%nat.
    change ([] ++ slice parsed_data 100 200)%list with W1.
    rewrite loop_flush_batch;
      [| rewrite Hplen; lia
       | change (slice parsed_data 200 (200 + LOG_BATCH_SIZE)) with W2;
         fold (probe W2); lia
       | change (slice parsed_data 200 (200 + LOG_BATCH_SIZE)) with W2;
         fold (probe W2); fold (current W1); lia
       | apply Hacc ].
    rewrite loop_extend;
      [| rewrite Hplen; lia
       | change (slice parsed_data 200 (200 + LOG_BATCH_SIZE)) with W2;
         fold (probe W2); lia
       | change (slice parsed_data 200 (200 + LOG_BATCH_SIZE)) with W2;
         fold (probe W2); fold (current []); lia ].
    change (200 + LOG_BATCH_SIZE)%nat with 300%nat.
    change ([] ++ slice parsed_data 200 300)%list with W2.
    rewrite loop_exit by (rewrite Hplen; lia).
    assert (HW2 : List.length W2 = 50%nat).
    { unfold W2, slice. rewrite length_firstn, length_skipn, Hplen. reflexivity. }
    destruct W2 as [|e2 W2'] eqn:HeqW2; [discriminate HW2|].
    rewrite (send_accepted s _ REGION _ (Hacc _ _)).
    reflexivity.
  - cbn [map]. rewrite !request_entries_body, !length_map.
    unfold W0, W1, W2, slice. rewrite !length_firstn, !length_skipn, Hplen.
    reflexivity.
Qed.

(** *** Termination and delivery when every unit fits *)

Lemma loop_returns (s : Session) (log_type : string) (parsed_data : list Envelope) :
  (forall log req, accepted (s log req)) ->
  (forall index, (index < List.length parsed_data)%nat ->
     next_unit_fits str_header CUSTOMER_ID NAMESPACE log_type parsed_data index) ->
  forall (fuel index : nat) (entries : list Envelope) (log : list Request),
    (2 * (List.length parsed_data - index)
     + match entries with [] => 0 | _ => 1 end < fuel)%nat ->
    exists log' es,
      loop fuel s log_type parsed_data index entries log = (log', Ok es).
Proof.
  intros Hacc Hfits fuel. induction fuel as [|fuel IH]; intros index entries log Hfuel;
    [lia|].
  destruct (Nat.ltb_spec index (List.length parsed_data)) as [Hidx|Hidx];
    [| rewrite loop_exit by exact Hidx; eauto].
  specialize (Hfits index Hidx). unfold next_unit_fits in Hfits. cbv zeta in Hfits.
  rewrite Z.geb_leb in Hfits.
  set (batch := slice parsed_data index (index + LOG_BATCH_SIZE)) in *.
  destruct (Z.leb_spec T (sizeof (Json.dumps (JList (map envelope_json batch)))))
    as [Hprobe|Hprobe].
  - destruct (nth_error parsed_data index) as [e|] eqn:Hnth;
      [| apply nth_error_None in Hnth; lia].
    specialize (Hfits e eq_refl).
    destruct (Z.le_gt_cases
                (sizeof (Json.dumps (body log_type entries))
                 + sizeof (Json.dumps (envelope_json e))) T) as [Hle|Hgt].
    + rewrite (loop_append_one fuel s log_type parsed_data index entries log e Hnth)
        by assumption.
      apply IH. destruct entries; cbn [app]; lia.
    + rewrite (loop_flush_single fuel s log_type parsed_data index entries log e Hnth)
        by (try assumption; try lia; apply Hacc).
      apply IH. destruct entries as [|e0 entries]; [lia | lia].
  - destruct (Z.le_gt_cases
                (sizeof (Json.dumps (body log_type entries))
                 + sizeof (Json.dumps (JList (map envelope_json batch)))) T) as [Hle|Hgt].
    + rewrite loop_extend by assumption.
      apply IH. fold batch. unfold LOG_BATCH_SIZE.
      destruct (entries ++ batch)%list; lia.
    + rewrite loop_flush_batch by (try assumption; try lia; apply Hacc).
      apply IH. destruct entries as [|e0 entries]; [lia | lia].
Qed.

(** When the endpoint accepts every request and, at every cursor position,
    the unit tried next fits beside an empty body, [ingest] returns within
    [2 * len(data) + 2] iterations, and the entries of its requests, in the
    order of the sends, are exactly the envelopes of the input. *)
Lemma ingest_delivers_all (s : Session) (data : list json) (log_type : string) :
  let parsed_data := map (fun i => mkEnvelope (Json.dumps i)) data in
  (forall log req, accepted (s log req)) ->
  (forall index, (index < List.length parsed_data)%nat ->
     next_unit_fits str_header CUSTOMER_ID NAMESPACE log_type parsed_data index) ->
  exists sent,
    run (2 * List.length data + 2) s data log_type [] = (sent, Ok tt)
    /\ delivered sent = map envelope_json parsed_data.
Proof.
  intros parsed_data Hacc Hfits.
  destruct (ingest_delivers_prefix (2 * List.length data + 2) s data log_type [])
    as (sent & r & Hrun & rest & Hrest & Hr).
  fold parsed_data in Hrest. cbn [app] in Hrun.
  assert (Hok : r = Ok tt).
  { revert Hrun. unfold ingest, initialize_http_session, authorized. rewrite bind_ret. unfold bind. fold parsed_data.
    destruct (loop_returns s log_type parsed_data Hacc Hfits
                (2 * List.length data + 2) 0 [] [])
      as (log' & es & ->).
    { unfold parsed_data. rewrite length_map. lia. }
    destruct es as [|e0 es]; [now intros [= _ <-]|].
    rewrite (send_accepted s _ REGION log' (Hacc _ _)). now intros [= _ <-]. }
  subst r. exists sent. split; [exact Hrun|].
  rewrite Hrest, (Hr eq_refl). now rewrite app_nil_r.
Qed.

(** *** The send operation and the reference list *)

Lemma contains_start (b c : string) : contains (b ++ c) b.
Proof. now exists EmptyString, c. Qed.

Lemma contains_append_r (a b c : string) : contains b c -> contains (a ++ b) c.
Proof.
  intros (pre & post & ->). exists (a ++ pre), post. now rewrite append_assoc.
Qed.

Lemma contains_end (a b : string) : contains (a ++ b) b.
Proof.
  exists a, EmptyString. f_equal.
  induction b as [|c b IH]; [reflexivity | cbn; now rewrite <- IH].
Qed.

Lemma ingestion_request_url (b : json) (region : string) :
  url (ingestion_request b region) =
  "https://"
  ++ (if (Str.lower region =? "us")%string then INGESTION_API_BASE_URL
      else Str.lower region ++ "-" ++ INGESTION_API_BASE_URL)
  ++ "/v2/unstructuredlogentries:batchCreate".
Proof.
  unfold ingestion_request. cbn [url].
  destruct (Str.lower region =? "us")%string; cbn [negb];
    [reflexivity | now rewrite !append_assoc].
Qed.

Lemma reference_list_request_url (region list_name : string) :
  url (reference_list_request region list_name) =
  "https://"
  ++ (if (Str.lower region =? "us")%string then REFERENCE_LIST_API_BASE_URL
      else Str.lower region ++ "-" ++ REFERENCE_LIST_API_BASE_URL)
  ++ "/v2/lists/" ++ list_name.
Proof.
  unfold reference_list_request. cbn [url].
  destruct (Str.lower region =? "us")%string; cbn [negb];
    [reflexivity | now rewrite !append_assoc].
Qed.

(** [get_reference_list] makes exactly one request, the one for its region
    and list name. *)
Lemma reference_list_trace (s : Session) (list_name : string) (log : list Request) :
  fst (get_reference_list str_exn REGION s list_name log)
  = (log ++ [reference_list_request REGION list_name])%list.
Proof.
  unfold get_reference_list, initialize_http_session, authorized. rewrite bind_ret.
  fold (reference_list_request REGION list_name).
  unfold bind at 1, request, answering. cbv beta iota.
  unfold try_except.
  match goal with
  | |- fst (match ?m ?l with _ => _ end) = _ =>
      assert (H : fst (m l) = l); [| destruct (m l) as [l' [a|e|]]; cbn [fst] in H; subst l']
  end.
  - unfold bind, lift, ret.
    destruct (raise_for_status _); [| reflexivity | reflexivity].
    destruct (response_bool _); [| reflexivity].
    destruct (response_json _) as [v| |]; [| reflexivity | reflexivity].
    destruct (py_get v _ _) as [c| |]; [| reflexivity | reflexivity].
    destruct (py_iter c) as [i| |]; [| reflexivity | reflexivity].
    destruct (stripped i); reflexivity.
  - reflexivity.
  - reflexivity.
  - reflexivity.
Qed.

Lemma stripped_strings (lines : list string) :
  stripped (map JString lines) = Ok (spec_reference_list lines).
Proof.
  unfold spec_reference_list.
  induction lines as [|l lines IH]; [reflexivity|].
  cbn [map stripped filter]. rewrite IH.
  destruct (Str.strip l); reflexivity.
Qed.

(** C6 (amended). Whenever the ingestion endpoint answers with a 4xx or 5xx
    status and a body that does not decode or decodes to a JSON object,
    [_send_logs_to_chronicle] raises a [RuntimeError], caused by the
    [HTTPError], whose message carries the status code and the reason: the
    field [error] of the object, the text [Unknown error] for an object
    without that field, a fixed fallback text for a body that does not
    decode. *)
Theorem send_error_carries_status_and_reason
    (s : Session) (b : json) (region : string) (log : list Request) :
  let response := s log (ingestion_request b region) in
  400 <= status_code response < 600 ->
  (forall v, json_body response = Some v -> exists kvs, v = JObject kvs) ->
  exists message,
    send s b region log =
    ((log ++ [ingestion_request b region])%list,
     Raise (RuntimeError message (HTTPError (status_code response))))
    /\ message = "Error occurred while pushing logs to Chronicle. "
                 ++ "Status code " ++ Str.of_Z (status_code response)
                 ++ ". Reason: " ++ spec_reason repr_json response
    /\ contains message (Str.of_Z (status_code response))
    /\ contains message (spec_reason repr_json response).
Proof.
  intros response Hstatus Hobj.
  eexists. split; [| split; [reflexivity | split]].
  - unfold _send_logs_to_chronicle. fold (ingestion_request b region).
    unfold bind at 1, request, answering. cbv beta iota. fold response.
    unfold try_except, bind, lift, raise, ret, response_json, is_Exception,
      raise_for_status, spec_reason.
    replace ((400 <=? status_code response) && (status_code response <? 600)) with true
      by (symmetry; apply andb_true_iff; split; [apply Z.leb_le | apply Z.ltb_lt]; lia).
    destruct (json_body response) as [v|] eqn:Hj.
    + destruct (Hobj v eq_refl) as [kvs ->]. reflexivity.
    + reflexivity.
  - apply contains_append_r, contains_append_r, contains_start.
  - do 3 apply contains_append_r. apply contains_end.
Qed.

(** C9. A 2xx answer whose body does not decode as JSON, as a body of zero
    bytes, is not taken as a confirmation: the decoding error of the
    success path is caught by the handler meant for error statuses, and
    [_send_logs_to_chronicle] raises a [RuntimeError] with the fallback
    reason and the 2xx status. *)
Theorem send_raises_on_success_with_empty_body
    (s : Session) (b : json) (region : string) (log : list Request) :
  let response := s log (ingestion_request b region) in
  200 <= status_code response < 300 ->
  json_body response = None ->
  send s b region log =
  ((log ++ [ingestion_request b region])%list,
   Raise (RuntimeError
            ("Error occurred while pushing logs to Chronicle. "
             ++ "Status code " ++ Str.of_Z (status_code response)
             ++ ". Reason: " ++ "Failed to parse error response from Chronicle")
            ValueError)).
Proof.
  intros response Hstatus Hj.
  unfold _send_logs_to_chronicle. fold (ingestion_request b region).
  unfold bind at 1, request, answering. cbv beta iota. fold response.
  unfold try_except, bind, lift, raise, ret, response_json, is_Exception,
    raise_for_status.
  replace ((400 <=? status_code response) && (status_code response <? 600)) with false
    by (symmetry; apply andb_false_iff; left; apply Z.leb_gt; lia).
  now rewrite Hj.
Qed.


(** Once the request is answered, [get_reference_list] returns a list of
    strings or raises a [RuntimeError]. The branch that would fall through
    to [None] needs a response that is falsy although [raise_for_status]
    passed, and a response is truthy exactly when [raise_for_status]
    passes. *)
Lemma reference_list_answered_never_none
    (s : Session) (list_name : string) (log : list Request) :
  (exists lines,
     snd (get_reference_list str_exn REGION s list_name log) = Ok (Some lines))
  \/ (exists message cause,
        snd (get_reference_list str_exn REGION s list_name log)
        = Raise (RuntimeError message cause)).
Proof.
  remember (snd (get_reference_list str_exn REGION s list_name log)) as r eqn:Hr.
  revert Hr.
  unfold get_reference_list, initialize_http_session, authorized. rewrite bind_ret.
  fold (reference_list_request REGION list_name).
  unfold bind at 1, request, answering. cbv beta iota.
  set (response := s log (reference_list_request REGION list_name)).
  unfold try_except, bind, lift, ret, raise, is_Exception, response_bool.
  assert (Hnf : raise_for_status response <> OutOfFuel).
  { unfold raise_for_status.
    destruct ((400 <=? status_code response) && (status_code response <? 600));
      discriminate. }
  assert (Hstripped : forall l, stripped l <> OutOfFuel).
  { intro l. induction l as [|[] l IH]; cbn [stripped]; try discriminate.
    destruct (stripped l); [discriminate | discriminate | exact IH]. }
  destruct (raise_for_status response) as [[]|e|];
    [| intros ->; right; do 2 eexists; reflexivity | contradiction].
  destruct (response_json response) as [v|e|] eqn:Hv;
    [| intros ->; right; do 2 eexists; reflexivity
     | unfold response_json in Hv; destruct (json_body response); discriminate].
  destruct v as [| | | | | |kvs]; cbn [py_get]; try (intros ->; right; do 2 eexists; reflexivity; fail).
  destruct (py_iter (Json.get "lines" kvs (JList []))) as [items|e|] eqn:Hit;
    [| intros ->; right; do 2 eexists; reflexivity
     | destruct (Json.get "lines" kvs (JList [])); discriminate].
  destruct (stripped items) as [l|e|] eqn:Hs;
    [intros ->; left; eexists; reflexivity | intros ->; right; do 2 eexists; reflexivity | now apply Hstripped in Hs].
Qed.

(** *** The loop by cases *)

(** What one iteration does, as a proof rule: a property of the run holds
    for every number of iterations once it holds when the loop is cut
    short, when it exits, and is carried through each of the branches. *)
Lemma loop_cases (s : Session) (log_type : string) (parsed_data : list Envelope)
    (P : nat -> list Envelope -> list Request
         -> list Request * result (list Envelope) -> Prop) :
  (forall index entries log, P index entries log (log, OutOfFuel)) ->
  (forall index entries log,
     (List.length parsed_data <= index)%nat -> P index entries log (log, Ok entries)) ->
  (forall index entries log e out,
     nth_error parsed_data index = Some e ->
     sizeof (Json.dumps (body log_type entries))
     + sizeof (Json.dumps (envelope_json e)) <= T ->
     P (index + 1)%nat (entries ++ [e])%list log out ->
     P index entries log out) ->
  (forall index entries log out,
     (index < List.length parsed_data)%nat ->
     sizeof (Json.dumps (body log_type entries))
     + sizeof (Json.dumps (JList (map envelope_json
                 (slice parsed_data index (index + LOG_BATCH_SIZE))))) <= T ->
     P (index + LOG_BATCH_SIZE)%nat
       (entries ++ slice parsed_data index (index + LOG_BATCH_SIZE))%list log out ->
     P index entries log out) ->
  (forall index entries log out,
     (index < List.length parsed_data)%nat ->
     next_unit_overflows str_header CUSTOMER_ID NAMESPACE log_type parsed_data index entries ->
     accepted (s log (ingestion_request (body log_type entries) REGION)) ->
     P index [] (log ++ [ingestion_request (body log_type entries) REGION])%list out ->
     P index entries log out) ->
  (forall index entries log e,
     (index < List.length parsed_data)%nat ->
     next_unit_overflows str_header CUSTOMER_ID NAMESPACE log_type parsed_data index entries ->
     ~ accepted (s log (ingestion_request (body log_type entries) REGION)) ->
     send s (body log_type entries) REGION log
     = ((log ++ [ingestion_request (body log_type entries) REGION])%list, Raise e) ->
     P index entries log
       ((log ++ [ingestion_request (body log_type entries) REGION])%list, Raise e)) ->
  forall (fuel index : nat) (entries : list Envelope) (log : list Request),
    P index entries log (loop fuel s log_type parsed_data index entries log).
Proof.
  intros Hfuel Hexit Hone Hbatch Hflush Hreject fuel.
  induction fuel as [|fuel IH]; intros index entries log; [apply Hfuel|].
  rewrite loop_S.
  destruct (Nat.ltb_spec index (List.length parsed_data)) as [Hidx|Hidx];
    [| now apply Hexit].
  cbv zeta. rewrite Z.geb_leb.
  set (batch := slice parsed_data index (index + LOG_BATCH_SIZE)).
  assert (Hsend :
    next_unit_overflows str_header CUSTOMER_ID NAMESPACE log_type parsed_data index entries ->
    P index entries log
      ((send s (body log_type entries) REGION ;;;
        loop fuel s log_type parsed_data index []) log)).
  { intro Hover.
    destruct (flush_cases s (body log_type entries)
                (loop fuel s log_type parsed_data index []) log)
      as [[Ha ->]|[Hn [e He]]].
    - apply Hflush; [exact Hidx | exact Hover | exact Ha | apply IH].
    - rewrite He. apply Hreject; [exact Hidx | exact Hover | exact Hn |].
      destruct (send_cases s (body log_type entries) REGION log)
        as [[Ha _]|[_ [e' He']]]; [contradiction|].
      unfold bind in He. rewrite He' in He. injection He as <-. exact He'. }
  destruct (Z.leb_spec T (sizeof (Json.dumps (JList (map envelope_json batch)))))
    as [Hprobe|Hprobe].
  - destruct (nth_error parsed_data index) as [e|] eqn:Hnth;
      [| apply nth_error_None in Hnth; lia].
    destruct (Z.leb_spec (sizeof (Json.dumps (body log_type entries))
                          + sizeof (Json.dumps (envelope_json e))) T) as [Hle|Hgt].
    + eapply Hone; [exact Hnth | exact Hle | apply IH].
    + apply Hsend. left. split; [exact Hprobe | now exists e].
  - destruct (Z.leb_spec (sizeof (Json.dumps (body log_type entries))
                          + sizeof (Json.dumps (JList (map envelope_json batch)))) T)
      as [Hle|Hgt].
    + apply Hbatch; [exact Hidx | exact Hle | apply IH].
    + apply Hsend. right. now split.
Qed.

(** *** What a send returns and raises *)

(** [_send_logs_to_chronicle] makes exactly one request whatever the
    answer, and returns exactly when the answer is accepted: a status that
    is not 4xx or 5xx together with a body that decodes as JSON. *)
Theorem send_returns_iff_accepted
    (s : Session) (b : json) (region : string) (log : list Request) :
  fst (send s b region log) = (log ++ [ingestion_request b region])%list
  /\ (snd (send s b region log) = Ok tt
      <-> accepted (s log (ingestion_request b region)))
  /\ snd (send s b region log) <> OutOfFuel.
Proof.
  destruct (send_cases s b region log) as [[Ha ->]|[Hn [e ->]]]; cbn [fst snd].
  - split; [reflexivity | split; [| discriminate]].
    split; [intros _; exact Ha | reflexivity].
  - split; [reflexivity | split; [| discriminate]].
    split; [discriminate | contradiction].
Qed.

Lemma send_raises_send_error
    (s : Session) (b : json) (region : string) (log log' : list Request) (e : exn) :
  send s b region log = (log', Raise e) -> send_error e.
Proof.
  unfold _send_logs_to_chronicle, send_error.
  fold (ingestion_request b region).
  unfold bind at 1, request, answering. cbv beta iota.
  set (response := s log (ingestion_request b region)).
  unfold try_except, bind, lift, raise, ret, response_json, is_Exception.
  destruct (raise_for_status response) as [[]|e0|];
    destruct (json_body response) as [v|]; cbn; try discriminate;
    try (intros [= _ <-]; left; eauto; fail).
  destruct v; cbn; intros [= _ <-]; (left; eauto; fail) || now right.
Qed.

Lemma send_exceptions_answered
    (s : Session) (b : json) (region : string) (log : list Request) (e : exn) :
  let response := s log (ingestion_request b region) in
  snd (send s b region log) = Raise e ->
  (exists cause,
     e = RuntimeError
           ("Error occurred while pushing logs to Chronicle. "
            ++ "Status code " ++ Str.of_Z (status_code response)
            ++ ". Reason: " ++ spec_reason repr_json response) cause
     /\ ((cause = HTTPError (status_code response) /\ error_status response)
         \/ (cause = ValueError /\ ~ error_status response
             /\ json_body response = None)))
  \/ (e = AttributeError /\ error_status response
      /\ exists v, json_body response = Some v /\ forall kvs, v <> JObject kvs).
Proof.
  intro response. unfold _send_logs_to_chronicle. fold (ingestion_request b region).
  unfold bind at 1, request, answering. cbv beta iota. fold response.
  unfold try_except, bind, lift, raise, ret, response_json, is_Exception,
    raise_for_status, spec_reason, error_status.
  destruct (Z.leb_spec 400 (status_code response)) as [Hlo|Hlo];
    destruct (Z.ltb_spec (status_code response) 600) as [Hhi|Hhi]; cbn [andb];
    destruct (json_body response) as [v|] eqn:Hj; cbn [snd]; try discriminate;
    try (intros [= <-]; left; eexists; split;
         [reflexivity | right; repeat split; lia]).
  - destruct v as [| | | | | |kvs]; cbn [py_get is_ValueError snd];
      intros [= <-];
      try (right; repeat split; [lia | lia | eexists; split;
                                  [reflexivity | discriminate]]).
    left. eexists. split; [reflexivity | left; repeat split; lia].
  - intros [= <-]. left. eexists. split; [reflexivity | left; repeat split; lia].
Qed.


(** *** The requests of a run *)

(** [ingest] with no record makes no request and returns. *)
Theorem ingest_of_nothing
    (fuel : nat) (s : Session) (log_type : string) (log : list Request) :
  run (S fuel) s [] log_type log = (log, Ok tt).
Proof. reflexivity. Qed.


(** *** Runs in which every unit fits, and runs in which the first does not *)

Lemma overflow_needs_entries (log_type : string) (parsed_data : list Envelope)
    (index : nat) (entries : list Envelope) :
  next_unit_fits str_header CUSTOMER_ID NAMESPACE log_type parsed_data index ->
  next_unit_overflows str_header CUSTOMER_ID NAMESPACE log_type parsed_data index entries ->
  entries <> [].
Proof.
  unfold next_unit_fits, next_unit_overflows. cbv zeta. rewrite Z.geb_leb.
  intros Hfit Hover ->.
  destruct (Z.leb_spec T (sizeof (Json.dumps (JList (map envelope_json
              (slice parsed_data index (index + LOG_BATCH_SIZE))))))) as [Hp|Hp];
    destruct Hover as [(Hq & e & Hnth & Hbig)|(Hq & Hbig)]; try lia.
  specialize (Hfit e Hnth). lia.
Qed.

Lemma nonempty_requests_count (sent : list Request) :
  Forall (fun q => request_entries q <> []) sent ->
  (List.length sent <= List.length (delivered sent))%nat.
Proof.
  induction 1 as [|q sent Hq _ IH]; [apply Nat.le_refl|].
  rewrite delivered_cons, length_app. cbn [List.length].
  destruct (request_entries q); [contradiction | cbn [List.length]; lia].
Qed.

(** When, at every cursor position, the unit tried next fits beside an
    empty body, [ingest] never sends a body without entries, whatever the
    endpoint answers and wherever the run stops; so it makes at most as
    many requests as there are records. *)
Theorem fitting_units_give_no_empty_request
    (fuel : nat) (s : Session) (data : list json) (log_type : string) :
  let parsed_data := map (fun i => mkEnvelope (Json.dumps i)) data in
  (forall index, (index < List.length parsed_data)%nat ->
     next_unit_fits str_header CUSTOMER_ID NAMESPACE log_type parsed_data index) ->
  Forall (fun q => request_entries q <> []) (fst (run fuel s data log_type []))
  /\ (List.length (fst (run fuel s data log_type [])) <= List.length data)%nat.
Proof.
  intros parsed_data Hfits.
  pose (P := fun (_ : nat) (_ : list Envelope) (lg : list Request)
                 (out : list Request * result (list Envelope)) =>
       exists sent,
         fst out = (lg ++ sent)%list
         /\ Forall (fun q => request_entries q <> []) sent).
  assert (Hloop : forall fuel index entries lg,
            P index entries lg (loop fuel s log_type parsed_data index entries lg)).
  { apply loop_cases; subst P; cbv beta.
    - intros _ _ lg. exists []. cbn [fst]. now rewrite app_nil_r.
    - intros _ entries lg _. exists []. cbn [fst]. now rewrite app_nil_r.
    - intros index entries lg e out _ _ H. exact H.
    - intros index entries lg out _ _ H. exact H.
    - intros index entries lg out Hidx Hover _ (sent & Hfst & Hall).
      exists (ingestion_request (body log_type entries) REGION :: sent).
      split; [now rewrite Hfst, <- app_assoc|]. constructor; [| exact Hall].
      rewrite request_entries_body.
      pose proof (overflow_needs_entries _ _ _ _ (Hfits index Hidx) Hover) as Hne.
      destruct entries; [contradiction | discriminate].
    - intros index entries lg e Hidx Hover _ _.
      exists [ingestion_request (body log_type entries) REGION]. cbn [fst].
      split; [reflexivity|]. constructor; [| constructor].
      rewrite request_entries_body.
      pose proof (overflow_needs_entries _ _ _ _ (Hfits index Hidx) Hover) as Hne.
      destruct entries; [contradiction | discriminate]. }
  subst P. cbv beta in Hloop.
  assert (Hall : Forall (fun q => request_entries q <> []) (fst (run fuel s data log_type []))).
  { unfold ingest, initialize_http_session, authorized. rewrite bind_ret. unfold bind. fold parsed_data.
    destruct (Hloop fuel 0%nat [] []) as (sent & Hfst & Hall).
    destruct (loop fuel s log_type parsed_data 0 [] []) as [log' r].
    cbn [fst app] in Hfst. subst log'.
    destruct r as [[|e0 es]|e|]; try exact Hall.
    destruct (send_cases s (body log_type (e0 :: es)) REGION sent)
      as [[_ ->]|[_ [e ->]]]; cbn [fst];
      (apply Forall_app; split; [exact Hall|]; constructor; [| constructor];
       rewrite request_entries_body; discriminate). }
  split; [exact Hall|].
  destruct (ingest_delivers_prefix fuel s data log_type [])
    as (sent & r & Hrun & rest & Hrest & _).
  rewrite Hrun in *. cbn [fst app] in *.
  apply nonempty_requests_count in Hall.
  apply (f_equal (@List.length json)) in Hrest.
  rewrite !length_map, length_app in Hrest. lia.
Qed.

(** A non-empty input of at most [LOG_BATCH_SIZE] records whose probe batch
    fits beside the empty body goes out in a single request carrying all
    of it, and [ingest] returns when that request is accepted. *)
Theorem fitting_input_goes_in_one_request
    (s : Session) (data : list json) (log_type : string) (k : nat) :
  let parsed_data := map (fun i => mkEnvelope (Json.dumps i)) data in
  (0 < List.length data <= LOG_BATCH_SIZE)%nat ->
  sizeof (Json.dumps (body log_type []))
  + sizeof (Json.dumps (JList (map envelope_json parsed_data))) <= T ->
  accepted (s [] (ingestion_request (body log_type parsed_data) REGION)) ->
  run (2 + k) s data log_type [] =
  ([ingestion_request (body log_type parsed_data) REGION], Ok tt).
Proof.
  intros parsed_data Hlen Hfit Hacc.
  assert (Hplen : List.length parsed_data = List.length data)
    by (unfold parsed_data; apply length_map).
  assert (Hslice : slice parsed_data 0 (0 + LOG_BATCH_SIZE) = parsed_data).
  { unfold slice. rewrite Nat.add_0_l, Nat.sub_0_r. cbn [skipn].
    apply firstn_all2. lia. }
  pose proof (sizeof_pos (Json.dumps (body log_type []))) as Hpos.
  unfold ingest, initialize_http_session, authorized. rewrite bind_ret.
  fold parsed_data. change (2 + k)%nat with (S (S k)).
  unfold bind.
  rewrite loop_extend by (rewrite ?Hslice; lia).
  rewrite Hslice. cbn [app].
  rewrite loop_exit by lia.
  destruct parsed_data as [|e0 es] eqn:Hp; [cbn [List.length] in Hplen; lia|].
  now rewrite (send_accepted s _ REGION [] Hacc).
Qed.

(** When the endpoint accepts every request and the first unit does not
    fit beside the empty body, [ingest] never returns and never sends a
    record: each iteration sends the body without entries again. *)
Theorem ingest_never_returns_when_first_unit_overflows
    (s : Session) (data : list json) (log_type : string) :
  let parsed_data := map (fun i => mkEnvelope (Json.dumps i)) data in
  (forall log req, accepted (s log req)) ->
  (0 < List.length data)%nat ->
  next_unit_overflows str_header CUSTOMER_ID NAMESPACE log_type parsed_data 0 [] ->
  forall fuel : nat,
    run fuel s data log_type [] =
    (repeat (ingestion_request (body log_type []) REGION) fuel, OutOfFuel).
Proof.
  intros parsed_data Hacc Hlen Hover.
  apply livelock_ingest. fold parsed_data.
  unfold next_unit_overflows in Hover. cbv zeta in Hover.
  apply livelock.
  - exact Hacc.
  - unfold parsed_data. rewrite length_map. exact Hlen.
  - intro Hge. destruct Hover as [(_ & He)|(Hlt & _)]; [exact He | lia].
  - intro Hlt. destruct Hover as [(Hge & _)|(_ & Hbig)]; [lia | exact Hbig].
Qed.

(** *** The reference list: when it is returned and what it holds *)

Lemma lstrip_head (a : string) :
  Str.lstrip a = EmptyString
  \/ exists c r, Str.lstrip a = String c r /\ Str.is_space c = false.
Proof.
  induction a as [|c a IH]; [now left|].
  cbn [Str.lstrip]. destruct (Str.is_space c) eqn:Hc; [exact IH|].
  right. now exists c, a.
Qed.

Lemma rstrip_head (c : ascii) (r : string) :
  Str.is_space c = false -> exists r', Str.rstrip (String c r) = String c r'.
Proof.
  intro Hc. cbn [Str.rstrip]. rewrite Hc. destruct (Str.rstrip r); eauto.
Qed.

Lemma rstrip_idempotent (a : string) : Str.rstrip (Str.rstrip a) = Str.rstrip a.
Proof.
  induction a as [|c a IH]; [reflexivity|].
  cbn [Str.rstrip]. destruct (Str.rstrip a) as [|d a'] eqn:Ha.
  - destruct (Str.is_space c) eqn:Hc; [reflexivity|].
    cbn [Str.rstrip]. now rewrite Hc.
  - cbn [Str.rstrip]. cbn [Str.rstrip] in IH.
    destruct (match Str.rstrip a' with
              | EmptyString =>
                  if Str.is_space d then EmptyString else String d EmptyString
              | String a0 s0 => String d (String a0 s0)
              end) eqn:Hm; [discriminate IH | now rewrite IH].
Qed.

Lemma strip_idempotent (a : string) : Str.strip (Str.strip a) = Str.strip a.
Proof.
  unfold Str.strip.
  destruct (lstrip_head a) as [->|(c & r & -> & Hc)]; [reflexivity|].
  destruct (rstrip_head c r Hc) as [r' Hr]. rewrite Hr.
  cbn [Str.lstrip]. rewrite Hc, <- Hr. apply rstrip_idempotent.
Qed.

Lemma stripped_inv (items : list json) (lines : list string) :
  stripped items = Ok lines ->
  exists strs, items = map JString strs /\ lines = spec_reference_list strs.
Proof.
  revert lines. induction items as [|x items IH]; intros lines H.
  - injection H as <-. now exists [].
  - destruct x as [| | | |str| |]; try discriminate H.
    cbn [stripped] in H.
    destruct (stripped items) as [l| |]; try discriminate H.
    destruct (IH l eq_refl) as (strs & -> & ->).
    injection H as <-. exists (str :: strs). split; [reflexivity|].
    unfold spec_reference_list. cbn [map filter].
    destruct (Str.strip str); reflexivity.
Qed.

Lemma spec_reference_list_trimmed (strs : list string) :
  Forall (fun l => l <> EmptyString /\ Str.strip l = l) (spec_reference_list strs).
Proof.
  unfold spec_reference_list. induction strs as [|str strs IH]; [constructor|].
  cbn [map filter]. destruct (Str.strip str) eqn:Hs; cbn [String.eqb negb].
  - exact IH.
  - constructor; [| exact IH]. split; [discriminate|].
    rewrite <- Hs. apply strip_idempotent.
Qed.

Lemma reference_list_success
    (s : Session) (list_name : string) (log : list Request) (lines : list string) :
  let response := s log (reference_list_request REGION list_name) in
  snd (get_reference_list str_exn REGION s list_name log) = Ok (Some lines)
  <-> (~ error_status response
       /\ exists kvs strs,
            json_body response = Some (JObject kvs)
            /\ py_iter (Json.get "lines" kvs (JList [])) = Ok (map JString strs)
            /\ lines = spec_reference_list strs).
Proof.
  intro response.
  unfold get_reference_list, initialize_http_session, authorized. rewrite bind_ret.
  fold (reference_list_request REGION list_name).
  unfold bind at 1, request, answering. cbv beta iota. fold response.
  unfold try_except, bind, lift, ret, raise, is_Exception, response_bool,
    response_json, raise_for_status, error_status.
  destruct (Z.leb_spec 400 (status_code response)) as [Hlo|Hlo];
    destruct (Z.ltb_spec (status_code response) 600) as [Hhi|Hhi]; cbn [andb snd];
    try (split; [discriminate | intros [Hn _]; exfalso; apply Hn; lia]).
  all: destruct (json_body response) as [v|] eqn:Hj; cbn [snd];
    [| split; [discriminate | intros (_ & kvs & strs & H & _); discriminate H]].
  all: destruct v as [| | | | | |kvs]; cbn [py_get snd];
    try (split; [discriminate | intros (_ & kvs' & strs & H & _); discriminate H]).
  all: destruct (py_iter (Json.get "lines" kvs (JList []))) as [items|e|] eqn:Hit;
    cbn [snd];
    try (split; [discriminate
                | intros (_ & kvs' & strs & [= <-] & H & _);
                  rewrite Hit in H; discriminate H]).
  all: destruct (stripped items) as [l|e|] eqn:Hs; cbn [snd].
  all: try (split;
            [ intros [= <-]; split; [lia|];
              destruct (stripped_inv items l Hs) as (strs & -> & ->);
              now exists kvs, strs
            | intros (_ & kvs' & strs & [= <-] & H & ->);
              rewrite Hit in H; injection H as ->;
              rewrite stripped_strings in Hs; now injection Hs as <- ]).
  all: split; [discriminate
              | intros (_ & kvs' & strs & [= <-] & H & _);
                rewrite Hit in H; injection H as ->;
                rewrite stripped_strings in Hs; discriminate Hs].
Qed.

(** [get_reference_list] returns a list exactly when the status is not
    4xx or 5xx, the body decodes to an object, and what stands under
    [lines] (the empty list when absent) can be iterated and yields only
    strings; the list returned is then those strings trimmed, the empty
    ones dropped. In every other case it raises. *)
Theorem reference_list_returns_iff
    (s : Session) (list_name : string) (log : list Request) (lines : list string) :
  let response := s log (reference_list_request REGION list_name) in
  snd (get_reference_list str_exn REGION s list_name log) = Ok (Some lines)
  <-> (~ error_status response
       /\ exists kvs strs,
            json_body response = Some (JObject kvs)
            /\ py_iter (Json.get "lines" kvs (JList [])) = Ok (map JString strs)
            /\ lines = spec_reference_list strs).
Proof. exact (reference_list_success s list_name log lines). Qed.

(** On a 4xx or 5xx status [get_reference_list] raises a [RuntimeError]
    caused by the [HTTPError], whose message names the list and carries the
    status code. *)
Theorem reference_list_error_status
    (s : Session) (list_name : string) (log : list Request) :
  let response := s log (reference_list_request REGION list_name) in
  error_status response ->
  exists message,
    get_reference_list str_exn REGION s list_name log =
    ((log ++ [reference_list_request REGION list_name])%list,
     Raise (RuntimeError message (HTTPError (status_code response))))
    /\ message = "Error occurred while fetching reference list " ++ list_name
                 ++ ". Status code: " ++ Str.of_Z (status_code response)
                 ++ ". Reason: " ++ str_exn (HTTPError (status_code response))
    /\ contains message list_name
    /\ contains message (Str.of_Z (status_code response)).
Proof.
  intros response Hstatus. unfold error_status in Hstatus.
  eexists. split; [| split; [reflexivity | split]].
  - unfold get_reference_list, initialize_http_session, authorized. rewrite bind_ret.
  fold (reference_list_request REGION list_name).
    unfold bind at 1, request, answering. cbv beta iota. fold response.
    unfold try_except, bind, lift, raise_for_status.
    replace ((400 <=? status_code response) && (status_code response <? 600)) with true
      by (symmetry; apply andb_true_iff; split; [apply Z.leb_le | apply Z.ltb_lt]; lia).
    reflexivity.
  - apply contains_append_r, contains_start.
  - do 3 apply contains_append_r. apply contains_start.
Qed.

(** Every string [get_reference_list] returns is non-empty and has no
    white space at either end. *)
Theorem reference_list_lines_are_trimmed
    (s : Session) (list_name : string) (log : list Request) (lines : list string) :
  snd (get_reference_list str_exn REGION s list_name log) = Ok (Some lines) ->
  Forall (fun l => l <> EmptyString /\ Str.strip l = l) lines.
Proof.
  intro H. apply reference_list_success in H.
  destruct H as (_ & kvs & strs & _ & _ & ->).
  apply spec_reference_list_trimmed.
Qed.

Lemma stripped_chars (text : string) :
  stripped (chars text)
  = Ok (map (fun c => String c EmptyString)
          (filter (fun c => negb (Str.is_space c)) (string_chars text))).
Proof.
  induction text as [|c text IH]; [reflexivity|].
  cbn [chars stripped string_chars filter]. rewrite IH.
  unfold Str.strip. cbn [Str.lstrip].
  destruct (Str.is_space c) eqn:Hc; cbn [negb Str.rstrip Str.truthy map].
  - reflexivity.
  - rewrite Hc. reflexivity.
Qed.

(** When [lines] is a string instead of a list of strings,
    [get_reference_list] does not fail: it iterates over the characters and
    returns those that are not white space, each as a string of its own. *)
Theorem reference_list_of_text
    (s : Session) (list_name : string) (log : list Request)
    (kvs : list (string * json)) (text : string) :
  let response := s log (reference_list_request REGION list_name) in
  ~ error_status response ->
  json_body response = Some (JObject kvs) ->
  Json.get "lines" kvs (JList []) = JString text ->
  get_reference_list str_exn REGION s list_name log =
  ((log ++ [reference_list_request REGION list_name])%list,
   Ok (Some (map (fun c => String c EmptyString)
               (filter (fun c => negb (Str.is_space c)) (string_chars text))))).
Proof.
  intros response Hstatus Hj Hlines. unfold error_status in Hstatus.
  unfold get_reference_list, initialize_http_session, authorized. rewrite bind_ret.
  fold (reference_list_request REGION list_name).
  unfold bind at 1, request, answering. cbv beta iota. fold response.
  unfold try_except, bind, lift, ret, response_json, response_bool, raise_for_status.
  replace ((400 <=? status_code response) && (status_code response <? 600)) with false
    by (symmetry; apply andb_false_iff;
        destruct (Z.leb_spec 400 (status_code response)); [right; apply Z.ltb_ge; lia | now left]).
  rewrite Hj. cbn [py_get]. rewrite Hlines. cbn [py_iter].
  now rewrite stripped_chars.
Qed.

(** *** Termination whatever the endpoint answers *)

Lemma loop_overflow (fuel : nat) (s : AuthorizedSession) (log_type : string)
    (parsed_data : list Envelope) (index : nat) (entries : list Envelope)
    (log : list Request) :
  (index < List.length parsed_data)%nat ->
  next_unit_overflows str_header CUSTOMER_ID NAMESPACE log_type parsed_data index entries ->
  loop (S fuel) s log_type parsed_data index entries log =
  (send s (body log_type entries) REGION ;;;
   loop fuel s log_type parsed_data index []) log.
Proof.
  intros Hidx Hover. unfold next_unit_overflows in Hover. cbv zeta in Hover.
  rewrite loop_S. apply Nat.ltb_lt in Hidx. rewrite Hidx. cbv zeta.
  rewrite Z.geb_leb.
  destruct (Z.leb_spec T (sizeof (Json.dumps (JList (map envelope_json
              (slice parsed_data index (index + LOG_BATCH_SIZE))))))) as [Hp|Hp];
    destruct Hover as [(Hq & e & Hnth & Hbig)|(Hq & Hbig)]; try lia.
  - rewrite Hnth.
    destruct (Z.leb_spec (sizeof (Json.dumps (body log_type entries))
                          + sizeof (Json.dumps (envelope_json e))) T);
      [lia | reflexivity].
  - destruct (Z.leb_spec (sizeof (Json.dumps (body log_type entries))
                          + sizeof (Json.dumps (JList (map envelope_json
                              (slice parsed_data index (index + LOG_BATCH_SIZE)))))) T);
      [lia | reflexivity].
Qed.

Lemma loop_terminates (s : Session) (log_type : string) (parsed_data : list Envelope) :
  (forall index, (index < List.length parsed_data)%nat ->
     next_unit_fits str_header CUSTOMER_ID NAMESPACE log_type parsed_data index) ->
  forall (fuel index : nat) (entries : list Envelope) (log : list Request),
    (2 * (List.length parsed_data - index)
     + match entries with [] => 0 | _ => 1 end < fuel)%nat ->
    snd (loop fuel s log_type parsed_data index entries log) <> OutOfFuel.
Proof.
  intros Hfits fuel. induction fuel as [|fuel IH]; intros index entries log Hfuel;
    [lia|].
  destruct (Nat.ltb_spec index (List.length parsed_data)) as [Hidx|Hidx];
    [| rewrite loop_exit by exact Hidx; discriminate].
  assert (Hflush :
    next_unit_overflows str_header CUSTOMER_ID NAMESPACE log_type parsed_data index entries ->
    snd (loop (S fuel) s log_type parsed_data index entries log) <> OutOfFuel).
  { intro Hover. rewrite loop_overflow by assumption.
    pose proof (overflow_needs_entries _ _ _ _ (Hfits index Hidx) Hover) as Hne.
    destruct (flush_cases s (body log_type entries)
                (loop fuel s log_type parsed_data index []) log)
      as [[_ ->]|[_ [e ->]]]; [| discriminate].
    apply IH. destruct entries; [contradiction | lia]. }
  set (batch := slice parsed_data index (index + LOG_BATCH_SIZE)) in *.
  destruct (Z.le_gt_cases T (sizeof (Json.dumps (JList (map envelope_json batch)))))
    as [Hprobe|Hprobe].
  - destruct (nth_error parsed_data index) as [e|] eqn:Hnth;
      [| apply nth_error_None in Hnth; lia].
    destruct (Z.le_gt_cases
                (sizeof (Json.dumps (body log_type entries))
                 + sizeof (Json.dumps (envelope_json e))) T) as [Hle|Hgt].
    + rewrite (loop_append_one fuel s log_type parsed_data index entries log e Hnth)
        by assumption.
      apply IH. destruct entries; cbn [app]; lia.
    + apply Hflush. left. subst batch. split; [exact Hprobe|].
      exists e. split; [exact Hnth | lia].
  - destruct (Z.le_gt_cases
                (sizeof (Json.dumps (body log_type entries))
                 + sizeof (Json.dumps (JList (map envelope_json batch)))) T) as [Hle|Hgt].
    + rewrite loop_extend by (try assumption; fold batch; lia).
      apply IH. fold batch. unfold LOG_BATCH_SIZE.
      destruct (entries ++ batch)%list; lia.
    + apply Hflush. right. subst batch. split; lia.
Qed.

(** When, at every cursor position, the unit tried next fits beside an
    empty body, [ingest] ends within [2 * len(data) + 2] iterations of its
    loop whatever the endpoint answers: it returns or it raises. *)
Theorem ingest_terminates_when_units_fit
    (s : Session) (data : list json) (log_type : string) :
  let parsed_data := map (fun i => mkEnvelope (Json.dumps i)) data in
  (forall index, (index < List.length parsed_data)%nat ->
     next_unit_fits str_header CUSTOMER_ID NAMESPACE log_type parsed_data index) ->
  snd (run (2 * List.length data + 2) s data log_type []) <> OutOfFuel.
Proof.
  intros parsed_data Hfits. unfold ingest, initialize_http_session, authorized. rewrite bind_ret. unfold bind. fold parsed_data.
  pose proof (loop_terminates s log_type parsed_data Hfits
                (2 * List.length data + 2) 0 [] []) as Hloop.
  destruct (loop (2 * List.length data + 2) s log_type parsed_data 0 [] [])
    as [log' [[|e0 es]|e|]]; cbn [snd] in *; try discriminate.
  - destruct (send_cases s (body log_type (e0 :: es)) REGION log')
      as [[_ ->]|[_ [e ->]]]; discriminate.
  - exfalso. apply Hloop; [| reflexivity].
    unfold parsed_data. rewrite length_map. lia.
Qed.

(** *** Sessions whose requests can fail *)

Lemma send_answered
    (a : AuthorizedSession) (b : json) (region : string) (log : list Request)
    (r : Response) :
  a log (ingestion_request b region) = Some r ->
  send a b region log = send (always r) b region log.
Proof.
  intro H. unfold _send_logs_to_chronicle. fold (ingestion_request b region).
  unfold bind, request, answering, always. now rewrite H.
Qed.

Lemma send_unanswered
    (a : AuthorizedSession) (b : json) (region : string) (log : list Request) :
  a log (ingestion_request b region) = None ->
  send a b region log
  = ((log ++ [ingestion_request b region])%list, Raise ConnectionError).
Proof.
  intro H. unfold _send_logs_to_chronicle. fold (ingestion_request b region).
  unfold bind at 1, request. now rewrite H.
Qed.

(** The three outcomes of a send: the request fails, or it is answered and
    the answer is accepted, or it is answered and the answer is not. *)
Lemma send_link_cases
    (a : AuthorizedSession) (b : json) (region : string) (log : list Request) :
  let req := ingestion_request b region in
  (a log req = None
   /\ send a b region log = ((log ++ [req])%list, Raise ConnectionError))
  \/ (exists r, a log req = Some r /\ accepted r
                /\ send a b region log = ((log ++ [req])%list, Ok tt))
  \/ (exists r e, a log req = Some r /\ ~ accepted r /\ send_error e
                  /\ send a b region log = ((log ++ [req])%list, Raise e)).
Proof.
  intro req. destruct (a log req) as [r|] eqn:Ha.
  - right. rewrite (send_answered a b region log r Ha).
    destruct (send_cases (always r) b region log) as [[Hacc Hs]|[Hn [e Hs]]].
    + left. exists r. split; [reflexivity | split; [exact Hacc | exact Hs]].
    + right. exists r, e.
      split; [reflexivity | split; [exact Hn | split; [| exact Hs]]].
      exact (send_raises_send_error _ _ _ _ _ _ Hs).
  - left. split; [reflexivity | now apply send_unanswered].
Qed.

(** The loop by cases, for a session whose requests can fail. *)
Lemma loop_link_cases (a : AuthorizedSession) (log_type : string)
    (parsed_data : list Envelope)
    (P : nat -> list Envelope -> list Request
         -> list Request * result (list Envelope) -> Prop) :
  (forall index entries log, P index entries log (log, OutOfFuel)) ->
  (forall index entries log,
     (List.length parsed_data <= index)%nat -> P index entries log (log, Ok entries)) ->
  (forall index entries log e out,
     nth_error parsed_data index = Some e ->
     sizeof (Json.dumps (body log_type entries))
     + sizeof (Json.dumps (envelope_json e)) <= T ->
     P (index + 1)%nat (entries ++ [e])%list log out ->
     P index entries log out) ->
  (forall index entries log out,
     (index < List.length parsed_data)%nat ->
     sizeof (Json.dumps (body log_type entries))
     + sizeof (Json.dumps (JList (map envelope_json
                 (slice parsed_data index (index + LOG_BATCH_SIZE))))) <= T ->
     P (index + LOG_BATCH_SIZE)%nat
       (entries ++ slice parsed_data index (index + LOG_BATCH_SIZE))%list log out ->
     P index entries log out) ->
  (forall index entries log r out,
     (index < List.length parsed_data)%nat ->
     next_unit_overflows str_header CUSTOMER_ID NAMESPACE log_type parsed_data index entries ->
     a log (ingestion_request (body log_type entries) REGION) = Some r ->
     accepted r ->
     P index [] (log ++ [ingestion_request (body log_type entries) REGION])%list out ->
     P index entries log out) ->
  (forall index entries log r e,
     (index < List.length parsed_data)%nat ->
     next_unit_overflows str_header CUSTOMER_ID NAMESPACE log_type parsed_data index entries ->
     a log (ingestion_request (body log_type entries) REGION) = Some r ->
     ~ accepted r ->
     send_error e ->
     P index entries log
       ((log ++ [ingestion_request (body log_type entries) REGION])%list, Raise e)) ->
  (forall index entries log,
     (index < List.length parsed_data)%nat ->
     next_unit_overflows str_header CUSTOMER_ID NAMESPACE log_type parsed_data index entries ->
     a log (ingestion_request (body log_type entries) REGION) = None ->
     P index entries log
       ((log ++ [ingestion_request (body log_type entries) REGION])%list,
        Raise ConnectionError)) ->
  forall (fuel index : nat) (entries : list Envelope) (log : list Request),
    P index entries log (loop fuel a log_type parsed_data index entries log).
Proof.
  intros Hfuel Hexit Hone Hbatch Hflush Hreject Hfail fuel.
  induction fuel as [|fuel IH]; intros index entries log; [apply Hfuel|].
  destruct (Nat.ltb_spec index (List.length parsed_data)) as [Hidx|Hidx];
    [| rewrite loop_exit by exact Hidx; now apply Hexit].
  assert (Hsend :
    next_unit_overflows str_header CUSTOMER_ID NAMESPACE log_type parsed_data index entries ->
    P index entries log (loop (S fuel) a log_type parsed_data index entries log)).
  { intro Hover. rewrite loop_overflow by assumption. unfold bind.
    destruct (send_link_cases a (body log_type entries) REGION log)
      as [[Ha ->]|[(r & Ha & Hacc & ->)|(r & e & Ha & Hn & He & ->)]].
    - now apply Hfail.
    - eapply Hflush; [exact Hidx | exact Hover | exact Ha | exact Hacc | apply IH].
    - eapply Hreject; eassumption. }
  set (batch := slice parsed_data index (index + LOG_BATCH_SIZE)) in *.
  destruct (Z.le_gt_cases T (sizeof (Json.dumps (JList (map envelope_json batch)))))
    as [Hprobe|Hprobe].
  - destruct (nth_error parsed_data index) as [e|] eqn:Hnth;
      [| apply nth_error_None in Hnth; lia].
    destruct (Z.le_gt_cases
                (sizeof (Json.dumps (body log_type entries))
                 + sizeof (Json.dumps (envelope_json e))) T) as [Hle|Hgt].
    + rewrite (loop_append_one fuel a log_type parsed_data index entries log e Hnth)
        by assumption.
      eapply Hone; [exact Hnth | exact Hle | apply IH].
    + apply Hsend. left. subst batch. split; [exact Hprobe|].
      exists e. split; [exact Hnth | lia].
  - destruct (Z.le_gt_cases
                (sizeof (Json.dumps (body log_type entries))
                 + sizeof (Json.dumps (JList (map envelope_json batch)))) T) as [Hle|Hgt].
    + rewrite loop_extend by (try assumption; fold batch; lia).
      apply Hbatch; [exact Hidx | exact Hle | apply IH].
    + apply Hsend. right. subst batch. split; lia.
Qed.

(** The exceptions of [_send_logs_to_chronicle]. When the request itself
    fails, its exception leaves as it is, the call standing before the
    [try]. When the request is answered, the function raises a
    [RuntimeError] whose message carries the status and the reason, caused
    by the [HTTPError] of an error status or, for any other status, by the
    decoding error of the body; or, for an error status whose body decodes
    to something that is not an object, the [AttributeError] of [.get]. *)
Theorem send_exceptions
    (a : AuthorizedSession) (b : json) (region : string) (log : list Request)
    (e : exn) :
  snd (send a b region log) = Raise e ->
  (a log (ingestion_request b region) = None /\ e = ConnectionError)
  \/ exists response,
       a log (ingestion_request b region) = Some response
       /\ ((exists cause,
              e = RuntimeError
                    ("Error occurred while pushing logs to Chronicle. "
                     ++ "Status code " ++ Str.of_Z (status_code response)
                     ++ ". Reason: " ++ spec_reason repr_json response) cause
              /\ ((cause = HTTPError (status_code response) /\ error_status response)
                  \/ (cause = ValueError /\ ~ error_status response
                      /\ json_body response = None)))
           \/ (e = AttributeError /\ error_status response
               /\ exists v, json_body response = Some v
                            /\ forall kvs, v <> JObject kvs)).
Proof.
  intro H. destruct (a log (ingestion_request b region)) as [r|] eqn:Ha.
  - right. exists r. split; [reflexivity|].
    rewrite (send_answered a b region log r Ha) in H.
    exact (send_exceptions_answered (always r) b region log e H).
  - left. rewrite (send_unanswered a b region log Ha) in H.
    injection H as <-. now split.
Qed.

Lemma answered_trace_app (a : AuthorizedSession) (log t1 t2 : list Request) :
  answered_trace a log (t1 ++ t2)
  <-> answered_trace a log t1 /\ answered_trace a (log ++ t1) t2.
Proof.
  revert log. induction t1 as [|q t1 IH]; intro log.
  - cbn [app answered_trace]. rewrite app_nil_r. tauto.
  - cbn [app answered_trace]. rewrite IH, <- app_assoc. cbn [app]. tauto.
Qed.

(** [ingest] stops at the first request that fails or whose answer is not
    accepted. When creating the session fails it raises that failure and
    makes no request. Otherwise, when it raises, the request that failed
    or was rejected is the last it made, every request before it was
    answered and accepted, and the exception is the one of the failed
    request, or what the send raises on the rejected answer, a
    [RuntimeError] or the [AttributeError] of the handler; it never
    indexes past the end of the entries. Unless it raises, every request
    it made was answered and accepted. *)
Theorem ingest_stops_at_first_failure
    (fuel : nat) (a : AuthorizedSession) (data : list json) (log_type : string)
    (log : list Request) :
  run fuel None data log_type log = (log, Raise AuthError)
  /\ exists sent,
       fst (run fuel a data log_type log) = (log ++ sent)%list
       /\ match snd (run fuel a data log_type log) with
          | Raise e =>
              exists pre q,
                sent = (pre ++ [q])%list
                /\ answered_trace a log pre
                /\ ((a (log ++ pre)%list q = None /\ e = ConnectionError)
                    \/ (exists r, a (log ++ pre)%list q = Some r
                                  /\ ~ accepted r /\ send_error e))
          | _ => answered_trace a log sent
          end.
Proof.
  split; [reflexivity|].
  set (parsed_data := map (fun i => mkEnvelope (Json.dumps i)) data).
  pose (P := fun (_ : nat) (_ : list Envelope) (lg : list Request)
                 (out : list Request * result (list Envelope)) =>
       exists sent,
         fst out = (lg ++ sent)%list
         /\ match snd out with
            | Raise e =>
                exists pre q,
                  sent = (pre ++ [q])%list
                  /\ answered_trace a lg pre
                  /\ ((a (lg ++ pre)%list q = None /\ e = ConnectionError)
                      \/ (exists r, a (lg ++ pre)%list q = Some r
                                    /\ ~ accepted r /\ send_error e))
            | _ => answered_trace a lg sent
            end).
  assert (Hloop : forall fuel index entries lg,
            P index entries lg (loop fuel a log_type parsed_data index entries lg)).
  { apply loop_link_cases; subst P; cbv beta.
    - intros _ _ lg. exists []. cbn. now rewrite app_nil_r.
    - intros _ entries lg _. exists []. cbn. now rewrite app_nil_r.
    - intros index entries lg e out _ _ H. exact H.
    - intros index entries lg out _ _ H. exact H.
    - intros index entries lg r out _ _ Ha Hacc (sent & Hfst & Hsnd).
      exists (ingestion_request (body log_type entries) REGION :: sent).
      split; [now rewrite Hfst, <- app_assoc|].
      assert (Hhead : exists r0,
                a lg (ingestion_request (body log_type entries) REGION) = Some r0
                /\ accepted r0) by (exists r; now split).
      destruct (snd out) as [es|e|].
      + cbn [answered_trace]. now split.
      + destruct Hsnd as (pre & q & -> & Hpre & Hq).
        exists (ingestion_request (body log_type entries) REGION :: pre), q.
        split; [reflexivity | split; [cbn [answered_trace]; now split |]].
        now rewrite <- app_assoc in Hq.
      + cbn [answered_trace]. now split.
    - intros index entries lg r e _ _ Ha Hn He.
      exists [ingestion_request (body log_type entries) REGION]. cbn [fst snd].
      split; [reflexivity|].
      exists [], (ingestion_request (body log_type entries) REGION).
      rewrite app_nil_r. split; [reflexivity | split; [exact I|]].
      right. exists r. now repeat split.
    - intros index entries lg _ _ Ha.
      exists [ingestion_request (body log_type entries) REGION]. cbn [fst snd].
      split; [reflexivity|].
      exists [], (ingestion_request (body log_type entries) REGION).
      rewrite app_nil_r. split; [reflexivity | split; [exact I|]].
      left. now split. }
  subst P. cbv beta in Hloop.
  unfold ingest, initialize_http_session, authorized. rewrite bind_ret. unfold bind.
  fold parsed_data.
  destruct (Hloop fuel 0%nat [] log) as (sent & Hfst & Hsnd).
  destruct (loop fuel a log_type parsed_data 0 [] log) as [log' r].
  cbn [fst snd] in Hfst, Hsnd. subst log'.
  destruct r as [[|e0 es]|e|].
  - exists sent. now split.
  - destruct (send_link_cases a (body log_type (e0 :: es)) REGION (log ++ sent)%list)
      as [[Ha ->]|[(r & Ha & Hacc & ->)|(r & e & Ha & Hn & He & ->)]]; cbn [fst snd];
      exists (sent ++ [ingestion_request (body log_type (e0 :: es)) REGION])%list;
      (split; [now rewrite app_assoc|]).
    + eexists sent, _. split; [reflexivity | split; [exact Hsnd|]]. left. now split.
    + apply answered_trace_app. split; [exact Hsnd|]. cbn [answered_trace].
      split; [exists r; now split | exact I].
    + eexists sent, _. split; [reflexivity | split; [exact Hsnd|]].
      right. exists r. now repeat split.
  - exists sent. now split.
  - exists sent. now split.
Qed.

(** A body that holds at least one entry is within the threshold: whatever
    the fixed fields, the records, the session and the length of the run,
    every request of [ingest] whose body holds an entry is at most
    [SIZE_THRESHOLD_BYTES] bytes on the wire. *)
Theorem requests_with_entries_within_threshold
    (fuel : nat) (a : AuthorizedSession) (data : list json) (log_type : string)
    (log : list Request) :
  exists sent,
    fst (run fuel a data log_type log) = (log ++ sent)%list
    /\ Forall (fun q => request_entries q <> [] -> wire_size q <= T) sent.
Proof.
  set (parsed_data := map (fun i => mkEnvelope (Json.dumps i)) data).
  pose (fits := fun es : list Envelope =>
                  es = [] \/ Str.len (Json.dumps (body log_type es)) <= T).
  pose (P := fun (_ : nat) (entries : list Envelope) (lg : list Request)
                 (out : list Request * result (list Envelope)) =>
       fits entries ->
       exists sent,
         fst out = (lg ++ sent)%list
         /\ Forall (fun q => request_entries q <> [] -> wire_size q <= T) sent
         /\ (forall es, snd out = Ok es -> fits es)).
  assert (Hreq : forall entries region,
            fits entries ->
            request_entries (ingestion_request (body log_type entries) region) <> [] ->
            wire_size (ingestion_request (body log_type entries) region) <= T).
  { intros entries region [->|Hfit] Hne; [| exact Hfit].
    now rewrite request_entries_body in Hne. }
  assert (Hloop : forall fuel index entries lg,
            P index entries lg (loop fuel a log_type parsed_data index entries lg)).
  { apply loop_link_cases; subst P; cbv beta.
    - intros _ entries lg _. exists []. cbn [fst snd]. rewrite app_nil_r.
      split; [reflexivity | split; [constructor | discriminate]].
    - intros _ entries lg _ Hfit. exists []. cbn [fst snd]. rewrite app_nil_r.
      split; [reflexivity | split; [constructor | now intros es [= <-]]].
    - intros index entries lg e out _ Hle H _. apply H.
      right. now apply append_one_fits.
    - intros index entries lg out _ Hle H _. apply H.
      right. now apply append_batch_fits.
    - intros index entries lg r out _ _ _ _ H Hfit.
      destruct (H (or_introl eq_refl)) as (sent & Hfst & Hall & Hes).
      exists (ingestion_request (body log_type entries) REGION :: sent).
      split; [now rewrite Hfst, <- app_assoc|]. split; [| exact Hes].
      constructor; [now apply Hreq | exact Hall].
    - intros index entries lg r e _ _ _ _ _ Hfit.
      exists [ingestion_request (body log_type entries) REGION]. cbn [fst snd].
      split; [reflexivity | split; [| discriminate]].
      constructor; [now apply Hreq | constructor].
    - intros index entries lg _ _ _ Hfit.
      exists [ingestion_request (body log_type entries) REGION]. cbn [fst snd].
      split; [reflexivity | split; [| discriminate]].
      constructor; [now apply Hreq | constructor]. }
  subst P. cbv beta in Hloop.
  unfold ingest, initialize_http_session, authorized. rewrite bind_ret. unfold bind.
  fold parsed_data.
  destruct (Hloop fuel 0%nat [] log (or_introl eq_refl)) as (sent & Hfst & Hall & Hes).
  destruct (loop fuel a log_type parsed_data 0 [] log) as [log' r].
  cbn [fst snd] in Hfst, Hes. subst log'.
  destruct r as [[|e0 es]|e|]; try (exists sent; now split).
  exists (sent ++ [ingestion_request (body log_type (e0 :: es)) REGION])%list.
  split.
  - destruct (send_link_cases a (body log_type (e0 :: es)) REGION (log ++ sent)%list)
      as [[_ ->]|[(r & _ & _ & ->)|(r & e & _ & _ & _ & ->)]];
      cbn [fst]; now rewrite app_assoc.
  - apply Forall_app. split; [exact Hall|].
    constructor; [| constructor]. apply Hreq. now apply Hes.
Qed.

(** *** The reference list over a session that can fail *)

Lemma reference_list_answered
    (region : string) (a : AuthorizedSession) (list_name : string)
    (log : list Request) (r : Response) :
  a log (reference_list_request region list_name) = Some r ->
  get_reference_list str_exn region a list_name log
  = get_reference_list str_exn region (always r) list_name log.
Proof.
  intro H. unfold get_reference_list, initialize_http_session, authorized.
  rewrite !bind_ret. fold (reference_list_request region list_name).
  unfold bind, request, answering, always. now rewrite H.
Qed.

Lemma reference_list_unanswered
    (region : string) (a : AuthorizedSession) (list_name : string)
    (log : list Request) :
  a log (reference_list_request region list_name) = None ->
  get_reference_list str_exn region a list_name log
  = ((log ++ [reference_list_request region list_name])%list, Raise ConnectionError).
Proof.
  intro H. unfold get_reference_list, initialize_http_session, authorized.
  rewrite bind_ret. fold (reference_list_request region list_name).
  unfold bind at 1, request. now rewrite H.
Qed.

Lemma reference_list_trace_link
    (region : string) (a : AuthorizedSession) (list_name : string)
    (log : list Request) :
  fst (get_reference_list str_exn region a list_name log)
  = (log ++ [reference_list_request region list_name])%list.
Proof.
  destruct (a log (reference_list_request region list_name)) as [r|] eqn:Ha.
  - rewrite (reference_list_answered region a list_name log r Ha).
    unfold get_reference_list, initialize_http_session, authorized.
    rewrite bind_ret. fold (reference_list_request region list_name).
    unfold bind at 1, request, answering, always. cbv beta iota.
    unfold try_except.
    match goal with
    | |- fst (match ?m ?l with _ => _ end) = _ =>
        assert (H : fst (m l) = l);
          [| destruct (m l) as [l' [x|e|]]; cbn [fst] in H; subst l'; reflexivity]
    end.
    unfold bind, lift, ret.
    destruct (raise_for_status _); [| reflexivity | reflexivity].
    destruct (response_bool _); [| reflexivity].
    destruct (response_json _) as [v| |]; [| reflexivity | reflexivity].
    destruct (py_get v _ _) as [c| |]; [| reflexivity | reflexivity].
    destruct (py_iter c) as [i| |]; [| reflexivity | reflexivity].
    destruct (stripped i); reflexivity.
  - now rewrite (reference_list_unanswered region a list_name log Ha).
Qed.

(** C10 (amended). [get_reference_list] never returns [None]. It returns a
    list of strings, or raises a [RuntimeError], or lets out unwrapped the
    exception of what stands before its [try]: creating the session, or
    making the request when no response is obtained. *)
Theorem reference_list_never_none
    (account : Credentials) (list_name : string) (log : list Request) :
  (exists lines,
     snd (get_reference_list str_exn REGION account list_name log) = Ok (Some lines))
  \/ (exists message cause,
        snd (get_reference_list str_exn REGION account list_name log)
        = Raise (RuntimeError message cause))
  \/ (account = None
      /\ snd (get_reference_list str_exn REGION account list_name log)
         = Raise AuthError)
  \/ (exists a,
        account = Some a
        /\ a log (reference_list_request REGION list_name) = None
        /\ snd (get_reference_list str_exn REGION account list_name log)
           = Raise ConnectionError).
Proof.
  destruct account as [a|]; [| right; right; left; now split].
  change (Some a) with (authorized a).
  destruct (a log (reference_list_request REGION list_name)) as [r|] eqn:Ha.
  - rewrite (reference_list_answered REGION a list_name log r Ha).
    destruct (reference_list_answered_never_none (always r) list_name log)
      as [H|H]; [left; exact H | right; left; exact H].
  - right. right. right. exists a.
    rewrite (reference_list_unanswered REGION a list_name log Ha). now repeat split.
Qed.

(** C8 (amended). Both operations route by region in the same way: when
    the region is [us] in any letter case the URL has the bare host, and
    otherwise the host is prefixed with the region put in lower case and a
    dash. So [US] gives the bare host, [Europe] the prefix [europe-], and
    [asia-southeast1] the ingestion host
    [asia-southeast1-malachiteingestion-pa.googleapis.com]. *)
Theorem region_routing_lower_case
    (a : AuthorizedSession) (b : json) (region list_name : string)
    (log : list Request) :
  (exists req,
     fst (send a b region log) = (log ++ [req])%list
     /\ url req = "https://"
                  ++ (if (Str.lower region =? "us")%string
                      then INGESTION_API_BASE_URL
                      else Str.lower region ++ "-" ++ INGESTION_API_BASE_URL)
                  ++ "/v2/unstructuredlogentries:batchCreate")
  /\ (exists req,
        fst (get_reference_list str_exn region a list_name log) = (log ++ [req])%list
        /\ url req = "https://"
                     ++ (if (Str.lower region =? "us")%string
                         then REFERENCE_LIST_API_BASE_URL
                         else Str.lower region ++ "-" ++ REFERENCE_LIST_API_BASE_URL)
                     ++ "/v2/lists/" ++ list_name)
  /\ map url (fst (send a b "asia-southeast1" log))
     = (map url log
        ++ ["https://asia-southeast1-malachiteingestion-pa.googleapis.com/v2/unstructuredlogentries:batchCreate"])%list
  /\ map url (fst (send a b "US" log))
     = (map url log
        ++ ["https://malachiteingestion-pa.googleapis.com/v2/unstructuredlogentries:batchCreate"])%list
  /\ map url (fst (send a b "Europe" log))
     = (map url log
        ++ ["https://europe-malachiteingestion-pa.googleapis.com/v2/unstructuredlogentries:batchCreate"])%list
  /\ map url (fst (get_reference_list str_exn "uS" a list_name log))
     = (map url log
        ++ [("https://backstory.googleapis.com/v2/lists/" ++ list_name)%string])%list
  /\ map url (fst (get_reference_list str_exn "EUROPE" a list_name log))
     = (map url log
        ++ [("https://europe-backstory.googleapis.com/v2/lists/" ++ list_name)%string])%list.
Proof.
  assert (Hsend : forall r, fst (send a b r log) = (log ++ [ingestion_request b r])%list).
  { intro r. destruct (send_link_cases a b r log)
      as [[_ ->]|[(x & _ & _ & ->)|(x & e & _ & _ & _ & ->)]]; reflexivity. }
  split; [| split; [| split; [| split; [| split; [| split]]]]].
  - exists (ingestion_request b region).
    split; [apply Hsend | apply ingestion_request_url].
  - exists (reference_list_request region list_name).
    split; [apply reference_list_trace_link | apply reference_list_request_url].
  - rewrite Hsend, map_app. reflexivity.
  - rewrite Hsend, map_app. reflexivity.
  - rewrite Hsend, map_app. reflexivity.
  - rewrite reference_list_trace_link, map_app. reflexivity.
  - rewrite reference_list_trace_link, map_app. reflexivity.
Qed.

End Properties.

(** ** Sizes of the inputs used below *)

Lemma text_envelope_len (n : N) :
  Str.len (Json.dumps (envelope_json (text_envelope n))) = Z.of_N n + 19.
Proof.
  rewrite envelope_len. unfold text_envelope, text_record. cbn [logText Json.dumps].
  unfold Json.quote. rewrite escape_replicate_letter, !escape_append, !len_append.
  rewrite escape_replicate_letter, len_replicate.
  change (Str.len (Json.escape Str.dquote)) with 2. lia.
Qed.

Lemma entries_len_repeat (e : Envelope) (n : nat) :
  entries_len (repeat e (S n)) =
  Str.len (Json.dumps (envelope_json e))
  + Z.of_nat n * (2 + Str.len (Json.dumps (envelope_json e))).
Proof.
  induction n as [|n IH].
  - cbn [repeat]. rewrite entries_len_single. lia.
  - change (repeat e (S (S n))) with ([e] ++ repeat e (S n))%list.
    rewrite entries_len_app, IH, entries_len_single. cbn [repeat]. lia.
Qed.

Lemma empty_body_len : Str.len (Json.dumps empty_body) = 56.
Proof. reflexivity. Qed.

Lemma accept_all_accepted (log : list Request) (req : Request) :
  accepted (accept_all log req).
Proof. split; [reflexivity | now exists (JObject [])]. Qed.

Lemma empty_request_entries (fuel : nat) :
  delivered (repeat empty_request fuel) = [].
Proof. induction fuel as [|fuel IH]; [reflexivity | exact IH]. Qed.

(** One record whose envelope does not fit beside the empty body: the
    cursor never moves. *)
Lemma single_record_livelock (h : nat) (n : N) :
  SIZE_THRESHOLD_BYTES < 2 * Z.of_nat h + Z.of_N n + 77 ->
  forall fuel : nat,
    ingest h no_repr "cust" "us" None fuel accept_all [text_record n] "STIX" [] =
    (repeat empty_request fuel, OutOfFuel).
Proof.
  intros Hbig fuel.
  apply (livelock_ingest h no_repr "cust" "us" None accept_all "STIX" [text_record n]).
  clear fuel. intros fuel log.
  apply livelock.
  - exact accept_all_accepted.
  - cbn [map List.length]. lia.
  - intros _. exists (text_envelope n). split; [reflexivity|].
    fold empty_body. unfold getsizeof.
    rewrite (text_envelope_len n), empty_body_len. lia.
  - intros _. fold empty_body.
    change (slice (map (fun i => mkEnvelope (Json.dumps i)) [text_record n]) 0
              (0 + LOG_BATCH_SIZE)) with [text_envelope n].
    unfold getsizeof.
    rewrite batch_len, entries_len_single, (text_envelope_len n), empty_body_len. lia.
Qed.

(** A full probe batch of equal records that measures under the threshold
    but does not fit beside the empty body: the cursor never moves. *)
Lemma probe_batch_livelock (h : nat) (n : N) :
  Z.of_nat h + 100 * Z.of_N n + 2101 < SIZE_THRESHOLD_BYTES ->
  SIZE_THRESHOLD_BYTES < 2 * Z.of_nat h + 100 * Z.of_N n + 2158 ->
  forall fuel : nat,
    ingest h no_repr "cust" "us" None fuel accept_all
      (repeat (text_record n) LOG_BATCH_SIZE) "STIX" [] =
    (repeat empty_request fuel, OutOfFuel).
Proof.
  intros Hlow Hhigh fuel.
  apply (livelock_ingest h no_repr "cust" "us" None accept_all "STIX"
           (repeat (text_record n) LOG_BATCH_SIZE)).
  clear fuel. intros fuel log.
  assert (Hbatch :
    slice (map (fun i => mkEnvelope (Json.dumps i)) (repeat (text_record n) LOG_BATCH_SIZE))
      0 (0 + LOG_BATCH_SIZE) = repeat (text_envelope n) LOG_BATCH_SIZE).
  { rewrite map_repeat. unfold slice. rewrite Nat.add_0_l, Nat.sub_0_r.
    cbn [skipn]. apply firstn_all2. rewrite repeat_length. lia. }
  assert (Hsize :
    getsizeof h (Json.dumps (JList (map envelope_json (repeat (text_envelope n) LOG_BATCH_SIZE))))
    = Z.of_nat h + 100 * Z.of_N n + 2101).
  { unfold getsizeof. rewrite batch_len.
    change LOG_BATCH_SIZE with (S 99). rewrite entries_len_repeat, text_envelope_len. lia. }
  apply livelock.
  - exact accept_all_accepted.
  - rewrite length_map, repeat_length. unfold LOG_BATCH_SIZE. lia.
  - rewrite Hbatch, Hsize. lia.
  - intros _. rewrite Hbatch, Hsize. fold empty_body. unfold getsizeof.
    rewrite empty_body_len. lia.
Qed.

Lemma long_log_type_body_len (n : N) :
  Str.len (Json.dumps (body_of "cust" None (Str.replicate (N.to_nat n) "a") []))
  = Z.of_N n + 52.
Proof.
  unfold body_of. cbn [app map Json.dumps String.concat]. unfold Json.quote.
  rewrite escape_replicate_letter, !len_append, len_replicate.
  eval_lens. lia.
Qed.


(** With fixed fields that alone exceed the threshold, the first iteration
    already sends a body without entries. *)
Lemma long_log_type_first_request (n : N) (fuel : nat) :
  SIZE_THRESHOLD_BYTES < Z.of_N n + 52 ->
  let log_type := Str.replicate (N.to_nat n) "a" in
  let req := ingestion_request (body_of "cust" None log_type []) "us" in
  exists rest r,
    ingest CPYTHON_STR_HEADER no_repr "cust" "us" None (S fuel) accept_all
      [JInt 0] log_type [] = (req :: rest, r)
    /\ wire_size req = Z.of_N n + 52
    /\ request_entries req = [].
Proof.
  intros Hbig log_type req.
  assert (Hsize : wire_size req = Z.of_N n + 52) by apply long_log_type_body_len.
  assert (Hgo : exists rest r,
             ingest_loop CPYTHON_STR_HEADER no_repr "cust" "us" None (S fuel) accept_all
               log_type [mkEnvelope (Json.dumps (JInt 0))] 0 [] [] = (req :: rest, r)).
  { rewrite loop_S.
    change (0 <? List.length [mkEnvelope (Json.dumps (JInt 0))])%nat with true.
    cbv zeta.
    change (getsizeof CPYTHON_STR_HEADER
              (Json.dumps (JList (map envelope_json
                 (slice [mkEnvelope (Json.dumps (JInt 0))] 0 (0 + LOG_BATCH_SIZE))))))
      with 67.
    change (67 >=? SIZE_THRESHOLD_BYTES) with false. cbv iota.
    unfold getsizeof at 1. unfold log_type at 1.
    rewrite long_log_type_body_len. fold log_type.
    destruct (Z.leb_spec (Z.of_nat CPYTHON_STR_HEADER + (Z.of_N n + 52) + 1 + 67)
                SIZE_THRESHOLD_BYTES) as [Hle|_]; [lia|].
    unfold bind.
    rewrite (send_accepted no_repr accept_all _ "us" [] (accept_all_accepted _ _)).
    fold req. change ([] ++ [req])%list with [req].
    destruct (loop_delivers CPYTHON_STR_HEADER no_repr "cust" "us" None log_type
                [mkEnvelope (Json.dumps (JInt 0))] fuel accept_all 0%nat [] [req])
      as (sent & r & -> & _).
    exists sent. destruct r; eexists; reflexivity. }
  destruct Hgo as (rest & r & Hgo).
  unfold ingest, initialize_http_session, authorized. rewrite bind_ret. unfold bind. cbn [map]. rewrite Hgo.
  destruct r as [[|e0 es]|e|].
  - exists rest, (Ok tt). now repeat split.
  - destruct (send_cases no_repr accept_all
                (body_of "cust" None log_type (e0 :: es)) "us" (req :: rest))
      as [[_ ->]|[_ [e ->]]]; eexists _, _; (split; [reflexivity | now split]).
  - exists rest, (Raise e). now repeat split.
  - exists rest, OutOfFuel. now repeat split.
Qed.

(** ** The claims on concrete inputs *)

Lemma single_record_never_sent (n : N) :
  SIZE_THRESHOLD_BYTES < 2 * Z.of_nat CPYTHON_STR_HEADER + Z.of_N n + 77 ->
  forall fuel : nat,
  exists sent,
    ingest CPYTHON_STR_HEADER no_repr "cust" "us" None fuel accept_all
      [text_record n] "STIX" [] = (sent, OutOfFuel)
    /\ delivered sent = []
    /\ delivered sent <> [envelope_json (text_envelope n)].
Proof.
  intros Hbig fuel. exists (repeat empty_request fuel).
  rewrite (single_record_livelock CPYTHON_STR_HEADER n Hbig fuel), empty_request_entries.
  repeat split. discriminate.
Qed.

(** C1. One record whose envelope serialises to 949,900 bytes, below the
    threshold by either measure, is never sent: beside the empty body it
    measures more than the threshold, so with an endpoint that accepts
    every request each iteration sends the body without entries and
    leaves the cursor on the record. However long the loop runs it has not
    returned, and the entries sent, none, are not the envelopes of the
    input. *)
Theorem record_below_threshold_is_never_sent :
  let data := [text_record 949881] in
  let envelopes := [envelope_json (text_envelope 949881)] in
  Forall (fun e => Str.len (Json.dumps e) < SIZE_THRESHOLD_BYTES
                   /\ getsizeof CPYTHON_STR_HEADER (Json.dumps e) < SIZE_THRESHOLD_BYTES)
         envelopes
  /\ forall fuel : nat,
     exists sent,
       ingest CPYTHON_STR_HEADER no_repr "cust" "us" None fuel accept_all
         data "STIX" [] = (sent, OutOfFuel)
       /\ delivered sent = []
       /\ delivered sent <> envelopes.
Proof.
  split.
  - constructor; [| constructor]. unfold getsizeof.
    rewrite text_envelope_len. split; reflexivity.
  - apply (single_record_never_sent 949881). reflexivity.
Qed.

(** C3. A hundred records of 9,478 letters each, whose envelopes are 9,497
    bytes: the probe batch measures under the threshold, but not beside the
    empty body, and the loop never moves on to single entries. With an
    endpoint that accepts every request the loop does not terminate: after
    any number of iterations it has not returned and has made as many sends,
    all of the body without entries. *)
Theorem ordinary_batch_loops_forever :
  let data := repeat (text_record 9478) 100 in
  Str.len (Json.dumps (envelope_json (text_envelope 9478))) = 9497
  /\ forall fuel : nat,
       ingest CPYTHON_STR_HEADER no_repr "cust" "us" None fuel accept_all
         data "STIX" [] = (repeat empty_request fuel, OutOfFuel).
Proof.
  split.
  - rewrite text_envelope_len. reflexivity.
  - apply (probe_batch_livelock CPYTHON_STR_HEADER 9478); reflexivity.
Qed.

(** C4. One record whose envelope serialises to exactly twice the
    threshold is not sent alone in a single request: it is never sent. With
    an endpoint that accepts every request [ingest] sends the body without
    entries once per iteration, without end. *)
Theorem twice_threshold_record_is_never_sent :
  let data := [text_record 1899981] in
  Str.len (Json.dumps (envelope_json (text_envelope 1899981))) = 2 * SIZE_THRESHOLD_BYTES
  /\ request_entries empty_request = []
  /\ forall fuel : nat,
       ingest CPYTHON_STR_HEADER no_repr "cust" "us" None fuel accept_all
         data "STIX" [] = (repeat empty_request fuel, OutOfFuel).
Proof.
  split; [| split].
  - rewrite text_envelope_len. reflexivity.
  - reflexivity.
  - apply (single_record_livelock CPYTHON_STR_HEADER 1899981). reflexivity.
Qed.

(** C2. With a log type of 950,000 letters the first request [ingest]
    sends is over the threshold and carries no envelope at all: the body is
    sent with [entries] empty because the first unit does not fit, the
    same flush without progress as for C1, C3 and C4, where the final flush
    sends nothing when [entries] is empty. *)
Lemma fixed_fields_over_threshold_are_sent :
  let log_type := Str.replicate (N.to_nat 950000) "a" in
  exists req rest r,
    ingest CPYTHON_STR_HEADER no_repr "cust" "us" None 1 accept_all
      [JInt 0] log_type [] = (req :: rest, r)
    /\ SIZE_THRESHOLD_BYTES < wire_size req
    /\ request_entries req = [].
Proof.
  intro log_type.
  destruct (long_log_type_first_request 950000 0 eq_refl) as (rest & r & Hrun & Hsize & Hent).
  eexists _, rest, r. split; [exact Hrun | split; [| exact Hent]].
  rewrite Hsize. reflexivity.
Qed.

(** Three records sent to an accepting endpoint. *)
Lemma sent_bodies_within_threshold_witness :
  exists sent,
    fst (ingest CPYTHON_STR_HEADER no_repr "cust" "us" None 5 accept_all
           [JInt 1; JString "two"; JNull] "STIX" []) = ([] ++ sent)%list
    /\ Forall (fun q => wire_size q <= SIZE_THRESHOLD_BYTES) sent.
Proof.
  apply (sent_bodies_within_threshold CPYTHON_STR_HEADER no_repr "cust" "us" None "STIX").
  vm_compute. discriminate.
Defined.

(** C5, as stated, fails: 250 records whose probe batches are all far
    under the threshold (under 2,000 bytes) go out together in a single
    request of 250 entries. *)
Lemma small_batches_share_one_request :
  let data := repeat (JInt 7) 250 in
  let parsed_data := map (fun i => mkEnvelope (Json.dumps i)) data in
  let probe i :=
    getsizeof CPYTHON_STR_HEADER
      (Json.dumps (JList (map envelope_json (slice parsed_data i (i + LOG_BATCH_SIZE))))) in
  (probe 0%nat < 2000 /\ probe 100%nat < 2000 /\ probe 200%nat < 2000)
  /\ exists req,
       ingest CPYTHON_STR_HEADER no_repr "cust" "us" None 10 accept_all
         data "STIX" [] = ([req], Ok tt)
       /\ List.length (request_entries req) = 250%nat.
Proof.
  split; [repeat split |].
  eexists. split; vm_compute; reflexivity.
Qed.

Lemma skipn_repeat {A} (e : A) (i m : nat) :
  skipn i (repeat e m) = repeat e (m - i).
Proof.
  revert m. induction i as [|i IH]; intros [|m]; cbn [skipn repeat Nat.sub];
    try reflexivity. apply IH.
Qed.

Lemma firstn_repeat {A} (e : A) (k m : nat) :
  firstn k (repeat e m) = repeat e (Nat.min k m).
Proof.
  revert m. induction k as [|k IH]; intros [|m]; cbn [firstn repeat Nat.min];
    try reflexivity. now rewrite IH.
Qed.

Lemma slice_repeat {A} (e : A) (m i j : nat) :
  slice (repeat e m) i j = repeat e (Nat.min (j - i) (m - i)).
Proof. unfold slice. now rewrite skipn_repeat, firstn_repeat. Qed.

(** Measures of a probe batch and of a body made of [k + 1] copies of the
    envelope of [text_record n]. *)
Lemma probe_repeat (n : N) (m : nat) :
  getsizeof CPYTHON_STR_HEADER
    (Json.dumps (JList (map envelope_json (repeat (text_envelope n) m))))
  = match m with
    | O => 51
    | S k => 70 + Z.of_N n + Z.of_nat k * (Z.of_N n + 21)
    end.
Proof.
  unfold getsizeof. rewrite batch_len.
  change (Z.of_nat CPYTHON_STR_HEADER) with 48.
  destruct m as [|k]; [reflexivity|].
  rewrite entries_len_repeat, text_envelope_len. lia.
Qed.

Lemma current_repeat (n : N) (m : nat) :
  getsizeof CPYTHON_STR_HEADER
    (Json.dumps (body_of "cust" None "STIX" (repeat (text_envelope n) m)))
  = match m with
    | O => 105
    | S k => 124 + Z.of_N n + Z.of_nat k * (Z.of_N n + 21)
    end.
Proof.
  unfold getsizeof. rewrite body_len. fold empty_body. rewrite empty_body_len.
  change (Z.of_nat CPYTHON_STR_HEADER) with 48.
  destruct m as [|k]; [reflexivity|].
  rewrite entries_len_repeat, text_envelope_len. lia.
Qed.

Lemma current_empty :
  getsizeof CPYTHON_STR_HEADER (Json.dumps (body_of "cust" None "STIX" [])) = 105.
Proof. reflexivity. Qed.

(** C5 (amended), on 250 records of 6,400 letters: a probe batch of 100
    measures 642,149 bytes, two of them do not fit in one body. *)
Lemma three_requests_of_100_100_50_witness :
  let data := repeat (text_record 6400) 250 in
  let parsed_data := map (fun i => mkEnvelope (Json.dumps i)) data in
  let W0 := slice parsed_data 0 100 in
  let W1 := slice parsed_data 100 200 in
  let W2 := slice parsed_data 200 300 in
  let body := body_of "cust" None "STIX" in
  ingest CPYTHON_STR_HEADER no_repr "cust" "us" None 6 accept_all data "STIX" [] =
  ([ingestion_request (body W0) "us"; ingestion_request (body W1) "us";
    ingestion_request (body W2) "us"], Ok tt)
  /\ map (fun q => List.length (request_entries q))
         [ingestion_request (body W0) "us"; ingestion_request (body W1) "us";
          ingestion_request (body W2) "us"] = [100; 100; 50]%nat.
Proof.
  apply (three_requests_of_100_100_50 CPYTHON_STR_HEADER no_repr "cust" "us" None
           accept_all (repeat (text_record 6400) 250) "STIX" 0).
  - apply repeat_length.
  - exact accept_all_accepted.
  - rewrite map_repeat, slice_repeat. fold (text_envelope 6400).
    rewrite probe_repeat, current_empty. vm_compute. discriminate.
  - rewrite map_repeat, slice_repeat. fold (text_envelope 6400).
    rewrite probe_repeat, current_empty. vm_compute. discriminate.
  - rewrite map_repeat, slice_repeat. fold (text_envelope 6400).
    rewrite probe_repeat, current_empty. vm_compute. discriminate.
  - rewrite map_repeat, !slice_repeat. fold (text_envelope 6400).
    rewrite probe_repeat, current_repeat. vm_compute. reflexivity.
  - rewrite map_repeat, !slice_repeat. fold (text_envelope 6400).
    rewrite probe_repeat, current_repeat. vm_compute. reflexivity.
Defined.

(** C6, as stated, fails in two ways. A status outside 2xx is not an error
    for [raise_for_status] unless it is 4xx or 5xx: on a 302 with a JSON
    body the send returns. And on a 400 whose body decodes to a JSON array
    the handler's [.get] raises an [AttributeError], which carries neither
    the status nor a reason. *)
Lemma status_outside_2xx_without_ingestion_error :
  (~ (200 <= 302 < 300)
   /\ _send_logs_to_chronicle no_repr (always (mkResponse 302 (Some (JObject []))))
        empty_body "us" [] = ([empty_request], Ok tt))
  /\ (~ (200 <= 400 < 300)
      /\ _send_logs_to_chronicle no_repr (always (mkResponse 400 (Some (JList []))))
           empty_body "us" [] = ([empty_request], Raise AttributeError)).
Proof.
  split; (split; [lia | reflexivity]).
Qed.

(** C6 (amended), on scenario 3: a 400 with the body
    [{"error": "invalid logType"}]. *)
Lemma send_error_carries_status_and_reason_witness :
  exists message,
    _send_logs_to_chronicle no_repr
      (always (mkResponse 400 (Some (JObject [("error", JString "invalid logType")]))))
      empty_body "us" [] =
    ([empty_request], Raise (RuntimeError message (HTTPError 400)))
    /\ message = "Error occurred while pushing logs to Chronicle. Status code 400. Reason: invalid logType"
    /\ contains message "400"
    /\ contains message "invalid logType".
Proof.
  apply (send_error_carries_status_and_reason no_repr
           (always (mkResponse 400 (Some (JObject [("error", JString "invalid logType")]))))
           empty_body "us" []).
  - cbn. lia.
  - intros v H. cbn in H. injection H as <-. eexists. reflexivity.
Defined.

(** C9, on a 200 whose body is empty. *)
Lemma send_raises_on_success_with_empty_body_witness :
  _send_logs_to_chronicle no_repr (always (mkResponse 200 None)) empty_body "us" [] =
  ([empty_request],
   Raise (RuntimeError
            "Error occurred while pushing logs to Chronicle. Status code 200. Reason: Failed to parse error response from Chronicle"
            ValueError)).
Proof.
  apply (send_raises_on_success_with_empty_body no_repr
           (always (mkResponse 200 None)) empty_body "us" []).
  - cbn. lia.
  - reflexivity.
Defined.


(** A body without the field [lines] gives the empty list, and a 200 with
    the empty object is a confirmation for the send. *)
Lemma reference_list_without_lines :
  get_reference_list no_str "us" accept_all "blocklist" [] =
  ([reference_list_request "us" "blocklist"], Ok (Some [])).
Proof. reflexivity. Qed.

Lemma send_confirmed_by_empty_object :
  _send_logs_to_chronicle no_repr accept_all empty_body "us" [] =
  ([empty_request], Ok tt).
Proof. reflexivity. Qed.

(** ** The further properties on concrete inputs *)

Lemma three_small_records_fit :
  forall index : nat,
    (index < List.length (map (fun i => mkEnvelope (Json.dumps i))
                            [JInt 1; JString "two"; JNull]))%nat ->
    next_unit_fits CPYTHON_STR_HEADER "cust" None "STIX"
      (map (fun i => mkEnvelope (Json.dumps i)) [JInt 1; JString "two"; JNull]) index.
Proof.
  intros [|[|[|index]]] H; try (vm_compute; discriminate).
  cbn in H. lia.
Defined.

(** Three small records sent to an accepting endpoint. *)
Lemma ingest_delivers_all_witness :
  exists sent,
    ingest CPYTHON_STR_HEADER no_repr "cust" "us" None 8 accept_all
      [JInt 1; JString "two"; JNull] "STIX" [] = (sent, Ok tt)
    /\ delivered sent
       = map envelope_json
           (map (fun i => mkEnvelope (Json.dumps i)) [JInt 1; JString "two"; JNull]).
Proof.
  apply (ingest_delivers_all CPYTHON_STR_HEADER no_repr "cust" "us" None accept_all
           [JInt 1; JString "two"; JNull] "STIX").
  - exact accept_all_accepted.
  - exact three_small_records_fit.
Defined.

(** Three small records sent to an endpoint that answers 500. *)
Lemma fitting_units_give_no_empty_request_witness :
  Forall (fun q => request_entries q <> [])
    (fst (ingest CPYTHON_STR_HEADER no_repr "cust" "us" None 8
            (always (mkResponse 500 None)) [JInt 1; JString "two"; JNull] "STIX" []))
  /\ (List.length
        (fst (ingest CPYTHON_STR_HEADER no_repr "cust" "us" None 8
                (always (mkResponse 500 None)) [JInt 1; JString "two"; JNull] "STIX" []))
      <= 3)%nat.
Proof.
  apply (fitting_units_give_no_empty_request CPYTHON_STR_HEADER no_repr "cust" "us" None
           8 (always (mkResponse 500 None)) [JInt 1; JString "two"; JNull] "STIX").
  exact three_small_records_fit.
Defined.

Lemma ingest_terminates_when_units_fit_witness :
  snd (ingest CPYTHON_STR_HEADER no_repr "cust" "us" None 8
         (always (mkResponse 500 None)) [JInt 1; JString "two"; JNull] "STIX" [])
  <> OutOfFuel.
Proof.
  apply (ingest_terminates_when_units_fit CPYTHON_STR_HEADER no_repr "cust" "us" None
           (always (mkResponse 500 None)) [JInt 1; JString "two"; JNull] "STIX").
  exact three_small_records_fit.
Defined.

Lemma fitting_input_goes_in_one_request_witness :
  ingest CPYTHON_STR_HEADER no_repr "cust" "us" None 2 accept_all
    [JInt 1; JString "two"; JNull] "STIX" [] =
  ([ingestion_request
      (body_of "cust" None "STIX"
         (map (fun i => mkEnvelope (Json.dumps i)) [JInt 1; JString "two"; JNull]))
      "us"], Ok tt).
Proof.
  apply (fitting_input_goes_in_one_request CPYTHON_STR_HEADER no_repr "cust" "us" None
           accept_all [JInt 1; JString "two"; JNull] "STIX" 0).
  - unfold LOG_BATCH_SIZE. cbn [List.length]. lia.
  - vm_compute. discriminate.
  - apply accept_all_accepted.
Defined.

Lemma single_record_overflows (n : N) :
  SIZE_THRESHOLD_BYTES < 2 * Z.of_nat CPYTHON_STR_HEADER + Z.of_N n + 77 ->
  next_unit_overflows CPYTHON_STR_HEADER "cust" None "STIX"
    (map (fun i => mkEnvelope (Json.dumps i)) [text_record n]) 0 [].
Proof.
  intro Hbig. unfold next_unit_overflows. cbv zeta.
  change (slice (map (fun i => mkEnvelope (Json.dumps i)) [text_record n]) 0
            (0 + LOG_BATCH_SIZE)) with [text_envelope n].
  fold empty_body. unfold getsizeof.
  rewrite batch_len, entries_len_single, (text_envelope_len n), empty_body_len.
  destruct (Z.le_gt_cases SIZE_THRESHOLD_BYTES
              (Z.of_nat CPYTHON_STR_HEADER + (2 + (Z.of_N n + 19)) + 1)) as [H|H].
  - left. split; [exact H|]. exists (text_envelope n). split; [reflexivity|].
    rewrite (text_envelope_len n). lia.
  - right. split; lia.
Qed.

(** One record of 949,881 letters sent to an accepting endpoint, after
    seven iterations. *)
Lemma ingest_never_returns_when_first_unit_overflows_witness :
  ingest CPYTHON_STR_HEADER no_repr "cust" "us" None 7 accept_all
    [text_record 949881] "STIX" [] =
  (repeat (ingestion_request (body_of "cust" None "STIX" []) "us") 7, OutOfFuel).
Proof.
  apply (ingest_never_returns_when_first_unit_overflows CPYTHON_STR_HEADER no_repr
           "cust" "us" None accept_all [text_record 949881] "STIX").
  - exact accept_all_accepted.
  - cbn [List.length]. lia.
  - apply single_record_overflows. reflexivity.
Defined.

(** A 200 whose [lines] hold a padded string, an empty one and a bare one. *)
Lemma reference_list_returns_iff_witness :
  snd (get_reference_list no_str "us"
         (always (mkResponse 200
                    (Some (JObject [("lines", JList [JString " a "; JString EmptyString;
                                                     JString "b"])]))))
         "blocklist" []) = Ok (Some ["a"; "b"]).
Proof.
  apply (reference_list_returns_iff no_str "us"
           (always (mkResponse 200
                      (Some (JObject [("lines", JList [JString " a "; JString EmptyString;
                                                       JString "b"])]))))
           "blocklist" [] ["a"; "b"]).
  split.
  - unfold error_status. cbn. lia.
  - exists [("lines", JList [JString " a "; JString EmptyString; JString "b"])],
      [" a "; EmptyString; "b"].
    repeat split.
Defined.

Lemma reference_list_lines_are_trimmed_witness :
  Forall (fun l => l <> EmptyString /\ Str.strip l = l) ["a"; "b"].
Proof.
  apply (reference_list_lines_are_trimmed no_str "us"
           (always (mkResponse 200
                      (Some (JObject [("lines", JList [JString " a "; JString EmptyString;
                                                       JString "b"])]))))
           "blocklist" [] ["a"; "b"]).
  reflexivity.
Defined.

(** A 404 for the list [blocklist]. *)
Lemma reference_list_error_status_witness :
  exists message,
    get_reference_list no_str "us" (always (mkResponse 404 None)) "blocklist" [] =
    ([reference_list_request "us" "blocklist"],
     Raise (RuntimeError message (HTTPError 404)))
    /\ message = "Error occurred while fetching reference list blocklist. Status code: 404. Reason: <exception>"
    /\ contains message "blocklist"
    /\ contains message "404".
Proof.
  apply (reference_list_error_status no_str "us" (always (mkResponse 404 None))
           "blocklist" []).
  unfold error_status. cbn. lia.
Defined.

(** A 200 whose [lines] is the string ["a b"]. *)
Lemma reference_list_of_text_witness :
  get_reference_list no_str "us"
    (always (mkResponse 200 (Some (JObject [("lines", JString "a b")]))))
    "blocklist" [] =
  ([reference_list_request "us" "blocklist"], Ok (Some ["a"; "b"])).
Proof.
  apply (reference_list_of_text no_str "us"
           (always (mkResponse 200 (Some (JObject [("lines", JString "a b")]))))
           "blocklist" [] [("lines", JString "a b")] "a b").
  - unfold error_status. cbn. lia.
  - reflexivity.
  - reflexivity.
Defined.

(** A 400 whose body decodes to a list. *)
Lemma send_exceptions_witness :
  let a : AuthorizedSession := always (mkResponse 400 (Some (JList []))) in
  (a [] (ingestion_request empty_body "us") = None /\ AttributeError = ConnectionError)
  \/ exists response,
       a [] (ingestion_request empty_body "us") = Some response
       /\ ((exists cause,
              AttributeError
              = RuntimeError
                  ("Error occurred while pushing logs to Chronicle. "
                   ++ "Status code " ++ Str.of_Z (status_code response)
                   ++ ". Reason: " ++ spec_reason no_repr response) cause
              /\ ((cause = HTTPError (status_code response) /\ error_status response)
                  \/ (cause = ValueError /\ ~ error_status response
                      /\ json_body response = None)))
           \/ (AttributeError = AttributeError /\ error_status response
               /\ exists v, json_body response = Some v
                            /\ forall kvs, v <> JObject kvs)).
Proof.
  apply (send_exceptions no_repr (always (mkResponse 400 (Some (JList []))))
           empty_body "us" [] AttributeError).
  reflexivity.
Defined.

(** C8, as stated, fails: for the region [Europe], which is not [us] in
    any letter case, the host is prefixed with [europe-], not with the
    region as configured. *)
Lemma capital_region_is_written_in_lower_case :
  Str.lower "Europe" <> "us"
  /\ exists req,
       fst (_send_logs_to_chronicle no_repr accept_all empty_body "Europe" []) = [req]
       /\ url req
          = "https://europe-malachiteingestion-pa.googleapis.com/v2/unstructuredlogentries:batchCreate"
       /\ url req
          <> "https://" ++ "Europe" ++ "-" ++ INGESTION_API_BASE_URL
             ++ "/v2/unstructuredlogentries:batchCreate".
Proof.
  split; [discriminate|].
  eexists. split; [reflexivity | split; [reflexivity | discriminate]].
Qed.

(** C10, as stated, fails: when the request obtains no response, or the
    session cannot be created, what [get_reference_list] raises is neither
    a list nor a [RuntimeError]. *)
Lemma unanswered_request_is_not_wrapped :
  let out := snd (get_reference_list no_str "us" unreachable "blocklist" []) in
  let out' := snd (get_reference_list no_str "us" None "blocklist" []) in
  out = Raise ConnectionError
  /\ out' = Raise AuthError
  /\ (forall lines, out <> Ok (Some lines))
  /\ (forall message cause, out <> Raise (RuntimeError message cause)).
Proof.
  repeat split; discriminate.
Qed.
